(** * Linera Tic Tac Toe: the Node relay server and its game sessions

    A shallow embedding of the backend server of the repository (the
    [TicTacToeGame] class, the REST handlers around the process-wide
    [games] map, and the WebSocket subscriptions and broadcasts) and of
    the lobby functions of the client that read the server's snapshots,
    followed by the properties of the game-session state machine, of the
    handlers and of the lobby.

    Conventions of the embedding:
    - a board cell is [option Symbol]: [None] is JavaScript's [null];
      reading the board at a key that is not one of its indices gives
      [undefined], which is the outer [None] of [cell];
    - a method that mutates [this] and returns a boolean becomes a function
      returning the boolean together with the object after the call;
    - [new Date()] and [uuidv4()] are inputs of the functions that call them. *)

From stdpp Require Import base list strings gmap.
From Stdlib Require Import ZArith Lia.

Local Open Scope Z_scope.
Local Open Scope nat_scope.

(** ** Data model *)

(** The two marks, ['X'] and ['O']. *)
Inductive Symbol : Type := X | O.

(** [this.status]: ['waiting'], ['playing'] or ['finished']. *)
Inductive Status : Type := waiting | playing | finished.

(** A non-null [this.winner]: one of the marks, or the string ['draw']. *)
Inductive Outcome : Type := won (s : Symbol) | draw.

#[global] Instance Symbol_eq_dec : EqDecision Symbol.
Proof. solve_decision. Defined.

#[global] Instance Status_eq_dec : EqDecision Status.
Proof. solve_decision. Defined.

#[global] Instance Outcome_eq_dec : EqDecision Outcome.
Proof. solve_decision. Defined.

(** An entry of [this.players]: [{ id, name, symbol }]. *)
Module Player.
Record t : Type := mk { id : string; name : string; symbol : Symbol }.
End Player.

(** The fields of a [TicTacToeGame] object, as the constructor sets them. *)
Record TicTacToeGame : Type := mkGame {
  id : string;
  board : list (option Symbol);
  currentPlayer : Symbol;
  players : list Player.t;
  status : Status;
  winner : option Outcome;
  createdAt : Z
}.

(** [constructor(gameId)]; [now] is the value of [new Date()]. *)
Definition newGame (gameId : string) (now : Z) : TicTacToeGame :=
  {| id := gameId;
     board := replicate 9 None;
     currentPlayer := X;
     players := [];
     status := waiting;
     winner := None;
     createdAt := now |}.

(** ** [addPlayer] *)

Definition addPlayer (this : TicTacToeGame) (playerId playerName : string)
  : bool * TicTacToeGame :=
  if length (players this) <? 2 then
    let symbol := if length (players this) =? 0 then X else O in
    let players' := players this ++ [Player.mk playerId playerName symbol] in
    (true,
     {| id := id this;
        board := board this;
        currentPlayer := currentPlayer this;
        players := players';
        status := if length players' =? 2 then playing else status this;
        winner := winner this;
        createdAt := createdAt this |})
  else (false, this).

(** ** [checkWinner] *)

Definition winPatterns : list (nat * nat * nat) :=
  [ (0, 1, 2); (3, 4, 5); (6, 7, 8);   (* rows *)
    (0, 3, 6); (1, 4, 7); (2, 5, 8);   (* columns *)
    (0, 4, 8); (2, 4, 6) ].            (* diagonals *)

(** Truthiness of a board read: only a mark is truthy ([null] and
    [undefined] are not). *)
Definition truthy (v : option (option Symbol)) : bool :=
  match v with
  | Some (Some _) => true
  | _ => false
  end.

Definition checkWinner (b : list (option Symbol)) : bool :=
  existsb
    (fun pattern : nat * nat * nat =>
       let '(a, b1, c) := pattern in
       truthy (b !! a)
       && bool_decide (b !! a = b !! b1)
       && bool_decide (b !! a = b !! c))
    winPatterns.

(** ** [makeMove] *)

(** [this.board[position]] for an integer [position]: a negative key or
    one past the end is not a property of the array. *)
Definition cell (b : list (option Symbol)) (position : Z)
  : option (option Symbol) :=
  if (position <? 0)%Z then None else b !! Z.to_nat position.

(** [this.players.find(p => p.id === playerId)]. *)
Definition findPlayer (ps : list Player.t) (playerId : string)
  : option Player.t :=
  List.find (fun p => bool_decide (Player.id p = playerId)) ps.

Definition otherSymbol (s : Symbol) : Symbol :=
  match s with X => O | O => X end.

Definition makeMove (this : TicTacToeGame) (playerId : string) (position : Z)
  : bool * TicTacToeGame :=
  if negb (bool_decide (status this = playing)) then (false, this)
  else if negb (bool_decide (cell (board this) position = Some None))
  then (false, this)
  else
    match findPlayer (players this) playerId with
    | None => (false, this)
    | Some player =>
        if negb (bool_decide (Player.symbol player = currentPlayer this))
        then (false, this)
        else
          let board' :=
            <[Z.to_nat position := Some (currentPlayer this)]> (board this) in
          if checkWinner board' then
            (true,
             {| id := id this;
                board := board';
                currentPlayer := currentPlayer this;
                players := players this;
                status := finished;
                winner := Some (won (currentPlayer this));
                createdAt := createdAt this |})
          else if forallb (fun c : option Symbol => bool_decide (c <> None)) board'
          then
            (true,
             {| id := id this;
                board := board';
                currentPlayer := currentPlayer this;
                players := players this;
                status := finished;
                winner := Some draw;
                createdAt := createdAt this |})
          else
            (true,
             {| id := id this;
                board := board';
                currentPlayer := otherSymbol (currentPlayer this);
                players := players this;
                status := status this;
                winner := winner this;
                createdAt := createdAt this |})
    end.

(** ** [getState] *)

(** The values a snapshot holds. *)
Inductive Value : Type :=
| VString (s : string)
| VBoard (b : list (option Symbol))
| VSymbol (s : Symbol)
| VPlayers (ps : list Player.t)
| VStatus (st : Status)
| VWinner (w : option Outcome)
| VDate (t : Z).

(** A snapshot is the object literal [getState] builds: its keys in
    order, each with its value. *)
Definition Snapshot : Type := list (string * Value).

Definition getState (this : TicTacToeGame) : Snapshot :=
  [ ("id", VString (id this));
    ("board", VBoard (board this));
    ("currentPlayer", VSymbol (currentPlayer this));
    ("players", VPlayers (players this));
    ("status", VStatus (status this));
    ("winner", VWinner (winner this));
    ("createdAt", VDate (createdAt this)) ]%string.

(** Property read [snapshot[key]]; [None] is [undefined]. *)
Fixpoint prop (key : string) (o : Snapshot) : option Value :=
  match o with
  | [] => None
  | (k, v) :: o' => if bool_decide (k = key) then Some v else prop key o'
  end.

(** ** The REST handlers over the [games] map *)

(** The fields the handlers read from [req.body]. *)
Record Body : Type := mkBody {
  playerId : string;
  playerName : string;
  position : Z
}.

(** What a handler sends: [{ success: true, game }], or a status code with
    [{ success: false, error }]. *)
Inductive Response : Type :=
| success (game : Snapshot)
| failure (code : nat) (error : string).

(** [app.post('/api/games')]; [gameId] is the value of [uuidv4()]. The
    handler does not read the request body. *)
Definition createGame (games : gmap string TicTacToeGame)
    (gameId : string) (now : Z) (body : Body)
  : gmap string TicTacToeGame * Response :=
  let game := newGame gameId now in
  (<[gameId := game]> games, success (getState game)).

(** [app.post('/api/games/:gameId/join')]. *)
Definition joinGame (games : gmap string TicTacToeGame)
    (gameId : string) (body : Body)
  : gmap string TicTacToeGame * Response :=
  match games !! gameId with
  | None => (games, failure 404 "Game not found")
  | Some game =>
      let '(joined, game') := addPlayer game (playerId body) (playerName body) in
      if negb joined then (games, failure 400 "Game is full")
      else (<[gameId := game']> games, success (getState game'))
  end.

(** [app.post('/api/games/:gameId/move')]. *)
Definition submitMove (games : gmap string TicTacToeGame)
    (gameId : string) (body : Body)
  : gmap string TicTacToeGame * Response :=
  match games !! gameId with
  | None => (games, failure 404 "Game not found")
  | Some game =>
      let '(moveSuccess, game') := makeMove game (playerId body) (position body) in
      if negb moveSuccess then (games, failure 400 "Invalid move")
      else (<[gameId := game']> games, success (getState game'))
  end.

(** ** Sequences of operations on one session *)

Inductive Request : Type :=
| Join (playerId playerName : string)
| Move (playerId : string) (position : Z).

Definition step (g : TicTacToeGame) (r : Request) : TicTacToeGame :=
  match r with
  | Join pid pname => (addPlayer g pid pname).2
  | Move pid pos => (makeMove g pid pos).2
  end.

Definition run (g : TicTacToeGame) (rs : list Request) : TicTacToeGame :=
  foldl step g rs.

(** The session created with [gameId] at time [now], after the requests
    [rs] in order. *)
Definition session (gameId : string) (now : Z) (rs : list Request)
  : TicTacToeGame :=
  run (newGame gameId now) rs.

(** ** The properties in the claims' own words *)

(** Some line of the board holds three equal marks. *)
Definition lineComplete (b : list (option Symbol)) : Prop :=
  exists (i j k : nat) (m : Symbol),
    (i, j, k) ∈ winPatterns /\
    b !! i = Some (Some m) /\ b !! j = Some (Some m) /\ b !! k = Some (Some m).

(** All 9 cells hold a mark. *)
Definition boardFull (b : list (option Symbol)) : Prop :=
  forall i : nat, i < 9 -> exists m : Symbol, b !! i = Some (Some m).

(** The three rows, three columns and two diagonals of the row-major grid. *)
Definition rows : list (nat * nat * nat) :=
  map (fun r => (3 * r, 3 * r + 1, 3 * r + 2)) [0; 1; 2].
Definition columns : list (nat * nat * nat) :=
  map (fun c => (c, c + 3, c + 6)) [0; 1; 2].
Definition diagonals : list (nat * nat * nat) := [(0, 4, 8); (2, 4, 6)].

(** What status, players, winner and board size satisfy together in every
    session. *)
Definition consistent (g : TicTacToeGame) : Prop :=
  length (board g) = 9 /\
  map Player.symbol (players g) = take (length (players g)) [X; O] /\
  match status g with
  | waiting => length (players g) < 2 /\ winner g = None
  | playing => length (players g) = 2 /\ winner g = None
  | finished => length (players g) = 2 /\ winner g <> None
  end.

(** The creator of a session is its only player and holds the first
    mark, in the stored session and in the snapshot sent back. *)
Definition creatorJoined (out : gmap string TicTacToeGame * Response)
    (gameId : string) (body : Body) : Prop :=
  exists (g : TicTacToeGame) (p : Player.t),
    out.1 !! gameId = Some g /\ out.2 = success (getState g) /\
    players g = [p] /\ length (players g) = 1 /\
    Player.id p = playerId body /\ Player.symbol p = X /\
    status g = waiting.

(** A snapshot carries a conclusion timestamp. *)
Definition exposesConcludedAt (s : Snapshot) : Prop :=
  exists t : Z, prop "concludedAt" s = Some (VDate t).

(** The target cell already holds a mark. *)
Definition holdsMark (b : list (option Symbol)) (pos : Z) : Prop :=
  exists m : Symbol, cell b pos = Some (Some m).

(** The cell index lies outside the board. *)
Definition offBoard (b : list (option Symbol)) (pos : Z) : Prop :=
  (pos < 0 \/ Z.of_nat (length b) <= pos)%Z.

(** The participant's assigned mark is not the current turn; a participant
    who is not in the session has no assigned mark. *)
Definition notTheirTurn (g : TicTacToeGame) (pid : string) : Prop :=
  Player.symbol <$> findPlayer (players g) pid <> Some (currentPlayer g).

(** The three grounds for rejecting a move that the error taxonomy names:
    NotPlaying, CellOccupied, NotYourTurn. *)
Definition rejectionGrounds (g : TicTacToeGame) (pid : string) (pos : Z)
  : Prop :=
  status g <> playing \/ holdsMark (board g) pos \/ notTheirTurn g pid.

(** ** Sample sessions *)

Definition twoPlayers : list Request :=
  [Join "p1" "Ann"; Join "p2" "Bob"]%string.

(** Both players have joined and no move was made. *)
Definition started : TicTacToeGame := session "g" 0 twoPlayers.

(** X takes the top row while O plays the middle row. *)
Definition xWins : list Request :=
  twoPlayers ++
  [Move "p1" 0; Move "p2" 3; Move "p1" 1; Move "p2" 4; Move "p1" 2]%string%Z.

(** The session one move before X completes the top row. *)
Definition xToWin : TicTacToeGame :=
  session "g" 0
    (twoPlayers ++
     [Move "p1" 0; Move "p2" 3; Move "p1" 1; Move "p2" 4]%string%Z).

(** A full board without a line: X O X / X O O / O X X. *)
Definition drawGame : list Request :=
  twoPlayers ++
  [Move "p1" 0; Move "p2" 1; Move "p1" 2; Move "p2" 4; Move "p1" 3;
   Move "p2" 5; Move "p1" 7; Move "p2" 6; Move "p1" 8]%string%Z.

(** A create request sent by participant p1. *)
Definition p1Body : Body :=
  {| playerId := "p1"; playerName := "Ann"; position := 0 |}.

(** ** Measures of a session *)

(** The order in which a session passes through its statuses. *)
Definition statusRank (st : Status) : nat :=
  match st with waiting => 0 | playing => 1 | finished => 2 end.

(** How many cells of the board hold the mark [m]. *)
Definition countMark (m : Symbol) (b : list (option Symbol)) : nat :=
  length (filter (fun c : option Symbol => c = Some m) b).

(** Some line of the board holds three marks [m]. *)
Definition lineOf (m : Symbol) (b : list (option Symbol)) : Prop :=
  exists i j k : nat,
    (i, j, k) ∈ winPatterns /\
    b !! i = Some (Some m) /\ b !! j = Some (Some m) /\ b !! k = Some (Some m).

(** How the board, the turn and the winner of a session fit its status:
    nothing is played before the second player joins; while playing no
    line is complete, a cell is free, and X is ahead by one mark exactly
    when it is O's turn; a finished session was decided by its last move. *)
Definition played (g : TicTacToeGame) : Prop :=
  match status g with
  | waiting => board g = replicate 9 None /\ currentPlayer g = X
  | playing =>
      ~ lineComplete (board g) /\ ~ boardFull (board g) /\
      countMark X (board g)
      = countMark O (board g) + (if decide (currentPlayer g = O) then 1 else 0)
  | finished =>
      countMark X (board g)
      = countMark O (board g) + (if decide (currentPlayer g = X) then 1 else 0)
      /\ (winner g = Some (won (currentPlayer g)) /\
          lineOf (currentPlayer g) (board g)
          \/ winner g = Some draw /\ boardFull (board g) /\
             ~ lineComplete (board g))
  end.

(** One participant has joined twice and it is O's turn. *)
Definition sameIdTwice : TicTacToeGame :=
  session "g" 0 [Join "p1" "Ann"; Join "p1" "Ann again"; Move "p1" 0%Z].

(** ** The read handlers *)

(** [app.get('/api/games/:gameId')]. *)
Definition getGame (games : gmap string TicTacToeGame) (gameId : string)
  : Response :=
  match games !! gameId with
  | None => failure 404 "Game not found"
  | Some game => success (getState game)
  end.

(** [app.get('/api/games')]: the snapshots of all stored games. A
    JavaScript [Map] lists its values in insertion order; [gmap] does not
    keep that order, so only what does not depend on the order is stated
    about this list. *)
Definition listGames (games : gmap string TicTacToeGame) : list Snapshot :=
  (fun entry : string * TicTacToeGame => getState entry.2)
    <$> map_to_list games.

(** ** The WebSocket side *)

(** [client.readyState]. *)
Inductive ReadyState : Type := CONNECTING | OPEN | CLOSING | CLOSED.

#[global] Instance ReadyState_eq_dec : EqDecision ReadyState.
Proof. solve_decision. Defined.

(** The only message the server sends: [{ type: 'game_update', game }]. *)
Inductive Message : Type := game_update (game : Snapshot).

(** A connection in [wss.clients]: the [gameId] property the server hangs
    on it ([None] while it is undefined), its [readyState], and the
    messages handed to its [send] so far, oldest first. *)
Module Client.
Record t : Type := mk {
  gameId : option string;
  readyState : ReadyState;
  sent : list Message
}.
End Client.

(** A parsed WebSocket message: [{ type, gameId }]. *)
Module Data.
Record t : Type := mk { type : string; gameId : string }.
End Data.

(** [broadcastToGame(gameId, message)] over [wss.clients]. *)
Definition broadcastToGame (clients : list Client.t) (gameId : string)
    (message : Message) : list Client.t :=
  (fun client : Client.t =>
     if bool_decide (Client.gameId client = Some gameId)
        && bool_decide (Client.readyState client = OPEN)
     then Client.mk (Client.gameId client) (Client.readyState client)
            (Client.sent client ++ [message])
     else client) <$> clients.

(** [handleWebSocketMessage(ws, data)]; [ws] is the position of the
    connection in [clients]. *)
Definition handleWebSocketMessage (games : gmap string TicTacToeGame)
    (clients : list Client.t) (ws : nat) (data : Data.t) : list Client.t :=
  if bool_decide (Data.type data = "join_game") then
    match games !! Data.gameId data with
    | Some game =>
        broadcastToGame
          (alter (fun c : Client.t =>
                    Client.mk (Some (Data.gameId data))
                      (Client.readyState c) (Client.sent c)) ws clients)
          (Data.gameId data) (game_update (getState game))
    | None => clients
    end
  else clients.

(** The join handler in full, with the broadcast it makes before
    answering. *)
Definition joinGameBroadcast (games : gmap string TicTacToeGame)
    (clients : list Client.t) (gameId : string) (body : Body)
  : gmap string TicTacToeGame * list Client.t * Response :=
  match games !! gameId with
  | None => (games, clients, failure 404 "Game not found")
  | Some game =>
      let '(joined, game') := addPlayer game (playerId body) (playerName body) in
      if negb joined then (games, clients, failure 400 "Game is full")
      else
        (<[gameId := game']> games,
         broadcastToGame clients gameId (game_update (getState game')),
         success (getState game'))
  end.

(** The move handler in full, with its broadcast. *)
Definition submitMoveBroadcast (games : gmap string TicTacToeGame)
    (clients : list Client.t) (gameId : string) (body : Body)
  : gmap string TicTacToeGame * list Client.t * Response :=
  match games !! gameId with
  | None => (games, clients, failure 404 "Game not found")
  | Some game =>
      let '(moveSuccess, game') := makeMove game (playerId body) (position body) in
      if negb moveSuccess then (games, clients, failure 400 "Invalid move")
      else
        (<[gameId := game']> games,
         broadcastToGame clients gameId (game_update (getState game')),
         success (getState game'))
  end.

(** ** Sequences of requests to the server *)

Inductive HttpRequest : Type :=
| PostGames (gameId : string) (now : Z) (body : Body)
| PostJoin (gameId : string) (body : Body)
| PostMove (gameId : string) (body : Body).

(** The [games] map after one request. *)
Definition serve (games : gmap string TicTacToeGame) (req : HttpRequest)
  : gmap string TicTacToeGame :=
  match req with
  | PostGames gameId now body => (createGame games gameId now body).1
  | PostJoin gameId body => (joinGame games gameId body).1
  | PostMove gameId body => (submitMove games gameId body).1
  end.

(** The [games] map of a server that started empty and handled [reqs]. *)
Definition serveAll (reqs : list HttpRequest) : gmap string TicTacToeGame :=
  foldl serve ∅ reqs.

(** ** The lobby of the client ([GameList]) *)

(** The client reads games as the JSON of [getState], whose keys are the
    fields of [TicTacToeGame]; the functions below read [status],
    [players] and [winner] from it. *)

Definition canJoinGame (playerId : string) (game : TicTacToeGame) : bool :=
  bool_decide (status game = waiting)
  && (length (players game) <? 2)
  && negb (existsb (fun p => bool_decide (Player.id p = playerId))
             (players game)).

Definition isPlayerInGame (playerId : string) (game : TicTacToeGame) : bool :=
  existsb (fun p => bool_decide (Player.id p = playerId)) (players game).

(** [getGameResult(game)]; [None] is [null]. The winner the server sends
    is ['X'], ['O'] or ['draw'], and only [null] is falsy among them. *)
Definition getGameResult (playerId : string) (game : TicTacToeGame)
  : option string :=
  if negb (bool_decide (status game = finished)) then None
  else
    match winner game with
    | None => Some "Draw"
    | Some w =>
        let winner :=
          List.find (fun p => bool_decide (won (Player.symbol p) = w))
            (players game) in
        if bool_decide (Player.id <$> winner = Some playerId)
        then Some "You Won!"
        else
          let name :=
            match winner with
            | Some p =>
                if bool_decide (Player.name p = "") then "Opponent"
                else Player.name p
            | None => "Opponent"
            end in
          Some (name +:+ " Won")
    end%string.

(** The object [getFilterCounts()] returns. *)
Module Counts.
Record t : Type := mk {
  all : nat;
  joinable : nat;
  myGames : nat;
  waiting : nat;
  playing : nat;
  finished : nat
}.
End Counts.

Definition getFilterCounts (playerId : string) (games : list TicTacToeGame)
  : Counts.t :=
  Counts.mk
    (length games)
    (length (List.filter (canJoinGame playerId) games))
    (length (List.filter (isPlayerInGame playerId) games))
    (length (List.filter (fun g => bool_decide (status g = waiting)) games))
    (length (List.filter (fun g => bool_decide (status g = playing)) games))
    (length (List.filter (fun g => bool_decide (status g = finished)) games)).

(** What the connections [clients'] hold after a handler answered [resp]
    for game [gameId], compared with [clients] before: the same
    connections in the same states, where a successful answer was sent,
    once, to every open connection subscribed to that game and to no
    other, and a failure was sent to nobody. *)
Definition delivered (clients clients' : list Client.t) (gameId : string)
    (resp : Response) : Prop :=
  length clients' = length clients /\
  forall (i : nat) (c : Client.t),
    clients !! i = Some c ->
    exists c' : Client.t,
      clients' !! i = Some c' /\
      Client.gameId c' = Client.gameId c /\
      Client.readyState c' = Client.readyState c /\
      Client.sent c'
      = Client.sent c
        ++ match resp with
           | success s =>
               if bool_decide (Client.gameId c = Some gameId
                               /\ Client.readyState c = OPEN)
               then [game_update s] else []
           | failure _ _ => []
           end.

(** Two connections watching game g, one of them closed, and one watching
    another game. *)
Definition sampleClients : list Client.t :=
  [ Client.mk (Some "g") OPEN [];
    Client.mk (Some "g") CLOSED [];
    Client.mk (Some "h") OPEN [];
    Client.mk None OPEN [] ]%string.

(** ** Proof automation *)

(** Case analysis along the branches of [makeMove] and [addPlayer]. *)
Ltac move_cases :=
  unfold makeMove in *; repeat case_match; simplify_eq/=.

Ltac join_cases :=
  unfold addPlayer in *; repeat case_match; simplify_eq/=.

(** Closes the arithmetic left after comparing the counts of marks. *)
Ltac count_marks :=
  repeat case_decide; try discriminate;
  first [ done | intros; lia | left; lia | right; lia
        | intros [=]; lia | intros; congruence ].

(** ** The model on the scenarios of the specification *)

Example xWins_board :
  board (session "g" 0 xWins)
  = [Some X; Some X; Some X; Some O; Some O; None; None; None; None].
Proof. reflexivity. Qed.

Example xWins_outcome :
  status (session "g" 0 xWins) = finished /\
  winner (session "g" 0 xWins) = Some (won X).
Proof. split; reflexivity. Qed.

Example drawGame_board :
  board (session "g" 0 drawGame)
  = [Some X; Some O; Some X; Some X; Some O; Some O; Some O; Some X; Some X].
Proof. reflexivity. Qed.

Example drawGame_outcome :
  status (session "g" 0 drawGame) = finished /\
  winner (session "g" 0 drawGame) = Some draw.
Proof. split; reflexivity. Qed.

Example occupied_cell_rejected :
  makeMove (session "g" 0 (twoPlayers ++ [Move "p1" 0%Z])) "p2" 0
  = (false, session "g" 0 (twoPlayers ++ [Move "p1" 0%Z])).
Proof. reflexivity. Qed.

Example winPatterns_lines : winPatterns = rows ++ columns ++ diagonals.
Proof. reflexivity. Qed.

(** ** Facts about single operations *)

Lemma makeMove_rejected (g : TicTacToeGame) (pid : string) (pos : Z) :
  (makeMove g pid pos).1 = false -> (makeMove g pid pos).2 = g.
Proof. move_cases; done. Qed.

Lemma addPlayer_rejected (g : TicTacToeGame) (pid pname : string) :
  (addPlayer g pid pname).1 = false -> (addPlayer g pid pname).2 = g.
Proof. join_cases; done. Qed.

(** What an accepted move looked like before it was applied, and what it
    wrote. *)
Lemma makeMove_accepted (g g' : TicTacToeGame) (pid : string) (pos : Z) :
  makeMove g pid pos = (true, g') ->
  status g = playing /\
  cell (board g) pos = Some None /\
  (exists player, findPlayer (players g) pid = Some player /\
                  Player.symbol player = currentPlayer g) /\
  board g' = <[Z.to_nat pos := Some (currentPlayer g)]> (board g) /\
  players g' = players g /\ id g' = id g /\ createdAt g' = createdAt g.
Proof.
  unfold makeMove.
  destruct (bool_decide_reflect (status g = playing)) as [Hs|]; [|done].
  destruct (bool_decide_reflect (cell (board g) pos = Some None)) as [Hc|];
    [|done].
  destruct (findPlayer (players g) pid) as [player|]; [|done].
  destruct (bool_decide_reflect (Player.symbol player = currentPlayer g))
    as [Hp|]; [|done].
  cbn. intros Hm. repeat case_match; simplify_eq/=; eauto 10.
Qed.

(** An empty cell lies on the board. *)
Lemma cell_some (b : list (option Symbol)) (pos : Z) (v : option Symbol) :
  cell b pos = Some v ->
  (0 <= pos)%Z /\ Z.to_nat pos < length b /\ b !! Z.to_nat pos = Some v.
Proof.
  unfold cell. destruct (Z.ltb_spec pos 0); [done|]. intros Hl.
  split; [done|]. split; [|done]. by eapply lookup_lt_Some.
Qed.

Lemma cell_outside (b : list (option Symbol)) (pos : Z) :
  (pos < 0 \/ Z.of_nat (length b) <= pos)%Z -> cell b pos = None.
Proof.
  unfold cell. intros Hout. destruct (Z.ltb_spec pos 0); [done|].
  apply lookup_ge_None. lia.
Qed.

(** ** [checkWinner] and the draw test against their descriptions *)

Lemma checkWinner_lineComplete (b : list (option Symbol)) :
  checkWinner b = true <-> lineComplete b.
Proof.
  unfold checkWinner, lineComplete. rewrite existsb_exists. split.
  - intros [[[i j] k] [Hin Hline]].
    apply andb_prop in Hline as [Hline Hik].
    apply andb_prop in Hline as [Hi Hij].
    apply bool_decide_eq_true in Hij, Hik.
    destruct (b !! i) as [[m|]|] eqn:Hbi; try discriminate.
    exists i, j, k, m. by rewrite list_elem_of_In.
  - intros (i & j & k & m & Hin & Hi & Hj & Hk).
    exists (i, j, k). split; [by apply list_elem_of_In|].
    rewrite Hi, Hj, Hk. cbn. by rewrite !bool_decide_eq_true_2.
Qed.

Lemma every_cell_boardFull (b : list (option Symbol)) :
  length b = 9 ->
  forallb (fun c : option Symbol => bool_decide (c <> None)) b = true
  <-> boardFull b.
Proof.
  intros Hlen. unfold boardFull. rewrite forallb_forall. split.
  - intros Hall i Hi.
    destruct (lookup_lt_is_Some_2 b i ltac:(lia)) as [c Hc].
    assert (Hne : c <> None).
    { eapply bool_decide_eq_true, Hall, list_elem_of_In, list_elem_of_lookup_2.
      exact Hc. }
    destruct c as [m|]; [by exists m | done].
  - intros Hfull c Hc%list_elem_of_In.
    apply list_elem_of_lookup in Hc as [i Hi].
    assert (Hlt : i < 9) by (rewrite <- Hlen; by eapply lookup_lt_Some).
    destruct (Hfull i Hlt) as [m Hm]. apply bool_decide_eq_true. congruence.
Qed.

(** ** Invariants of a session *)

Lemma newGame_consistent (gameId : string) (now : Z) :
  consistent (newGame gameId now).
Proof. repeat split; cbn; lia. Qed.

Lemma addPlayer_consistent (g : TicTacToeGame) (pid pname : string) :
  consistent g -> consistent (addPlayer g pid pname).2.
Proof.
  destruct g as [gid b cur ps st w t]. unfold consistent, addPlayer. cbn.
  intros (Hb & Hsym & Hst).
  destruct ps as [|p [|q ps]]; cbn in *.
  - destruct st; destruct Hst as [Hlen Hw]; repeat split; try done; lia.
  - injection Hsym as ->.
    destruct st; destruct Hst as [Hlen Hw]; repeat split; try done; lia.
  - destruct (Nat.ltb_spec (S (S (length ps))) 2); [lia|]. done.
Qed.

Lemma makeMove_consistent (g : TicTacToeGame) (pid : string) (pos : Z) :
  consistent g -> consistent (makeMove g pid pos).2.
Proof.
  intros Hg. destruct (makeMove g pid pos) as [[] g'] eqn:Hm; cbn.
  - destruct Hg as (Hb & Hsym & Hst).
    pose proof (makeMove_accepted _ _ _ _ Hm)
      as (Hplay & _ & _ & Hb' & Hps & _).
    rewrite Hplay in Hst. destruct Hst as [Hlen Hw].
    unfold consistent. rewrite Hb', Hps, length_insert.
    split; [done|]. split; [done|].
    move_cases; first [congruence | split; done].
  - pose proof (makeMove_rejected g pid pos) as Hrej.
    rewrite Hm in Hrej. cbn in Hrej. by rewrite Hrej.
Qed.

Lemma step_consistent (g : TicTacToeGame) (r : Request) :
  consistent g -> consistent (step g r).
Proof.
  destruct r; cbn; [apply addPlayer_consistent | apply makeMove_consistent].
Qed.

Lemma run_consistent (rs : list Request) (g : TicTacToeGame) :
  consistent g -> consistent (run g rs).
Proof.
  revert g. induction rs as [|r rs IH]; intros g Hg; cbn; [done|].
  apply IH, step_consistent, Hg.
Qed.

Lemma session_consistent (gameId : string) (now : Z) (rs : list Request) :
  consistent (session gameId now rs).
Proof. apply run_consistent, newGame_consistent. Qed.

(** No operation clears or changes a cell that holds a mark. *)
Lemma step_keeps_marks (g : TicTacToeGame) (r : Request) (i : nat) (m : Symbol) :
  board g !! i = Some (Some m) -> board (step g r) !! i = Some (Some m).
Proof.
  intros Hi. destruct r as [pid pname | pid pos]; cbn.
  - join_cases; done.
  - destruct (makeMove g pid pos) as [[] g'] eqn:Hm; cbn.
    + pose proof (makeMove_accepted _ _ _ _ Hm) as (_ & Hc & _ & Hb' & _).
      apply cell_some in Hc as (_ & _ & Hempty).
      rewrite Hb'. rewrite list_lookup_insert_ne; [done|].
      intros <-. congruence.
    + pose proof (makeMove_rejected g pid pos) as Hrej.
      rewrite Hm in Hrej. cbn in Hrej. by rewrite Hrej.
Qed.

Lemma run_keeps_marks (rs : list Request) (g : TicTacToeGame)
    (i : nat) (m : Symbol) :
  board g !! i = Some (Some m) -> board (run g rs) !! i = Some (Some m).
Proof.
  revert g. induction rs as [|r rs IH]; intros g Hi; cbn; [done|].
  by apply IH, step_keeps_marks.
Qed.

Lemma run_app (g : TicTacToeGame) (rs rs' : list Request) :
  run g (rs ++ rs') = run (run g rs) rs'.
Proof. apply foldl_app. Qed.

(** ** Creating a session *)

(** C1, as stated, fails: after the create request of participant p1 the
    stored session has no player, so the creator is not joined. *)
Lemma createGame_creator_not_joined :
  ~ creatorJoined (createGame ∅ "g" 0 p1Body) "g" p1Body.
Proof.
  intros (g & p & Hstored & _ & Hps & _). cbn in Hstored.
  rewrite lookup_insert_eq in Hstored. by simplify_eq.
Qed.

(** C1, amended: every create request stores and returns a fresh session
    without players (empty board, turn X, status waiting, no winner),
    whatever the request carries; the first participant who then joins it
    holds X and the session keeps waiting for a second player. *)
Theorem createGame_fresh_session
    (games : gmap string TicTacToeGame) (gameId : string) (now : Z)
    (body joiner : Body) :
  let g := newGame gameId now in
  createGame games gameId now body
    = (<[gameId := g]> games, success (getState g)) /\
  (createGame games gameId now body).1 !! gameId = Some g /\
  players g = [] /\ board g = replicate 9 None /\ currentPlayer g = X /\
  status g = waiting /\ winner g = None /\
  exists g1 : TicTacToeGame,
    joinGame (createGame games gameId now body).1 gameId joiner
      = (<[gameId := g1]> (<[gameId := g]> games), success (getState g1)) /\
    players g1 = [Player.mk (playerId joiner) (playerName joiner) X] /\
    status g1 = waiting.
Proof.
  cbn. rewrite lookup_insert_eq. repeat split.
  eexists. unfold joinGame. rewrite lookup_insert_eq. cbn. done.
Qed.

(** ** Moves that end the game *)

(** C2, as stated, fails: X completes the top row, the move is accepted
    and the session is finished, yet the snapshot has no conclusion
    timestamp. *)
Lemma finished_snapshot_lacks_concludedAt :
  (makeMove xToWin "p1" 2).1 = true /\
  status (makeMove xToWin "p1" 2).2 = finished /\
  ~ exposesConcludedAt (getState (makeMove xToWin "p1" 2).2).
Proof.
  split; [reflexivity|]. split; [reflexivity|].
  intros [t Ht]. vm_compute in Ht. discriminate.
Qed.

(** C2, amended: a successful move that ends the game records the
    conclusion through status and winner only. The session keeps its
    creation time, and its snapshot has exactly the seven keys of
    [getState]: it exposes createdAt and no concludedAt. *)
Theorem finishing_move_snapshot
    (g g' : TicTacToeGame) (pid : string) (pos : Z) :
  makeMove g pid pos = (true, g') ->
  status g' = finished ->
  winner g' <> None /\
  createdAt g' = createdAt g /\
  prop "createdAt" (getState g') = Some (VDate (createdAt g)) /\
  prop "concludedAt" (getState g') = None /\
  (getState g').*1
    = ["id"; "board"; "currentPlayer"; "players"; "status"; "winner";
       "createdAt"]%string.
Proof.
  intros Hm Hfin.
  pose proof (makeMove_accepted _ _ _ _ Hm) as (Hplay & _ & _ & _ & _ & _ & Ht).
  split.
  { move_cases; congruence. }
  split; [done|]. cbn. by rewrite Ht.
Qed.

Lemma finishing_move_snapshot_witness :
  prop "concludedAt" (getState (session "g" 0 xWins)) = None.
Proof.
  apply (finishing_move_snapshot xToWin (session "g" 0 xWins) "p1" 2);
    reflexivity.
Defined.

(** C3: an accepted move writes the mark of the current turn; if a line
    of the board then holds three equal marks the session is finished and
    the winner is the mark just played; otherwise, if all nine cells are
    filled, it is finished as a draw; otherwise the game continues. *)
Theorem move_outcome (g g' : TicTacToeGame) (pid : string) (pos : Z) :
  length (board g) = 9 ->
  makeMove g pid pos = (true, g') ->
  board g' = <[Z.to_nat pos := Some (currentPlayer g)]> (board g) /\
  board g' !! Z.to_nat pos = Some (Some (currentPlayer g)) /\
  (lineComplete (board g') ->
   status g' = finished /\ winner g' = Some (won (currentPlayer g))) /\
  (~ lineComplete (board g') -> boardFull (board g') ->
   status g' = finished /\ winner g' = Some draw) /\
  (~ lineComplete (board g') -> ~ boardFull (board g') ->
   status g' = playing /\ winner g' = winner g).
Proof.
  intros Hlen Hm.
  pose proof (makeMove_accepted _ _ _ _ Hm) as (Hplay & Hc & _ & Hb' & _).
  apply cell_some in Hc as (_ & Hlt & _).
  split; [done|]. split.
  { rewrite Hb'. by apply list_lookup_insert_eq. }
  assert (Hlen' : length (board g') = 9) by (by rewrite Hb', length_insert).
  rewrite <- checkWinner_lineComplete.
  rewrite <- (every_cell_boardFull _ Hlen').
  move_cases; repeat split; congruence.
Qed.

Lemma move_outcome_witness :
  status (session "g" 0 xWins) = finished /\
  winner (session "g" 0 xWins) = Some (won X).
Proof.
  destruct (move_outcome xToWin (session "g" 0 xWins) "p1" 2 eq_refl eq_refl)
    as (_ & _ & Hline & _).
  apply Hline. exists 0, 1, 2, X.
  split; [apply list_elem_of_here | by repeat split].
Defined.

(** ** Rejected moves *)

Lemma cell_cases (b : list (option Symbol)) (pos : Z) :
  cell b pos <> Some None <-> holdsMark b pos \/ offBoard b pos.
Proof.
  unfold holdsMark, offBoard. split.
  - intros Hne. destruct (cell b pos) as [[m|]|] eqn:Hc; [eauto | done |].
    right. unfold cell in Hc. destruct (Z.ltb_spec pos 0); [lia|].
    apply lookup_ge_None in Hc. lia.
  - intros [[m Hm] | Hoff]; [congruence|].
    by rewrite (cell_outside _ _ Hoff).
Qed.

Lemma makeMove_rejected_grounds (g : TicTacToeGame) (pid : string) (pos : Z) :
  (makeMove g pid pos).1 = false <->
  status g <> playing \/ cell (board g) pos <> Some None \/ notTheirTurn g pid.
Proof.
  unfold makeMove, notTheirTurn.
  destruct (bool_decide_reflect (status g = playing)) as [Hs|Hs]; cbn;
    [|by split; [left|]].
  destruct (bool_decide_reflect (cell (board g) pos = Some None)) as [Hc|Hc];
    cbn; [|by split; [right; left|]].
  destruct (findPlayer (players g) pid) as [player|]; cbn;
    [|by split; [right; right|]].
  destruct (bool_decide_reflect (Player.symbol player = currentPlayer g))
    as [Hp|Hp]; cbn.
  - split.
    + repeat case_match; done.
    + intros [?|[?|Hne]]; [done | done | congruence].
  - split; [|done]. intros _. right; right. congruence.
Qed.

(** C4, as stated, fails: with both players joined and X to move, p1 (who
    holds X) asks for cell 9. None of the three grounds holds, yet the
    move is rejected. *)
Lemma cell_nine_rejected_without_ground :
  (makeMove started "p1" 9).1 = false /\ ~ rejectionGrounds started "p1" 9.
Proof.
  split; [reflexivity|].
  intros [Hs | [[m Hm] | Ht]]; [by apply Hs | discriminate | by apply Ht].
Qed.

(** C4, amended: a move is rejected if and only if the status is not
    playing, or the target is not an empty cell of the board (it already
    holds a mark, or its index lies outside the board), or the
    participant's assigned mark is not the current turn (a participant not
    in the session included); a rejected move leaves the whole session
    unchanged. *)
Theorem makeMove_rejected_iff (g : TicTacToeGame) (pid : string) (pos : Z) :
  ((makeMove g pid pos).1 = false <->
   status g <> playing \/ holdsMark (board g) pos \/ offBoard (board g) pos
   \/ notTheirTurn g pid) /\
  ((makeMove g pid pos).1 = false -> (makeMove g pid pos).2 = g).
Proof.
  split; [|apply makeMove_rejected].
  rewrite makeMove_rejected_grounds, cell_cases. tauto.
Qed.

Lemma makeMove_rejected_iff_witness :
  (makeMove started "p2" 0).2 = started.
Proof.
  apply (proj2 (makeMove_rejected_iff started "p2" 0)). reflexivity.
Defined.

(** A rejected move request leaves the [games] map as it was. *)
Lemma submitMove_failure (games : gmap string TicTacToeGame)
    (gameId : string) (body : Body) (g : TicTacToeGame) :
  games !! gameId = Some g ->
  (makeMove g (playerId body) (position body)).1 = false ->
  submitMove games gameId body = (games, failure 400 "Invalid move").
Proof.
  intros Hg Hrej. unfold submitMove. rewrite Hg.
  destruct (makeMove g (playerId body) (position body)) as [ok g'].
  cbn in Hrej. by subst ok.
Qed.

(** ** Turn alternation *)

(** C5, as stated, fails: the accepted move with which X completes the
    top row leaves the turn at X, not at the other mark. *)
Lemma winning_move_keeps_turn :
  (makeMove xToWin "p1" 2).1 = true /\
  currentPlayer (makeMove xToWin "p1" 2).2
    <> otherSymbol (currentPlayer xToWin).
Proof. split; [reflexivity | vm_compute; discriminate]. Qed.

(** C5, amended: after every accepted move that does not end the game the
    turn is the other mark than the one that just played, and the two marks
    differ; an accepted move that ends the game leaves the turn at the mark
    that just played; no rejected move changes the turn. *)
Theorem turn_alternates (g : TicTacToeGame) (pid : string) (pos : Z) :
  ((makeMove g pid pos).1 = true -> status (makeMove g pid pos).2 = playing ->
   currentPlayer (makeMove g pid pos).2 = otherSymbol (currentPlayer g) /\
   otherSymbol (currentPlayer g) <> currentPlayer g /\
   otherSymbol (otherSymbol (currentPlayer g)) = currentPlayer g) /\
  ((makeMove g pid pos).1 = true -> status (makeMove g pid pos).2 = finished ->
   currentPlayer (makeMove g pid pos).2 = currentPlayer g) /\
  ((makeMove g pid pos).1 = false ->
   currentPlayer (makeMove g pid pos).2 = currentPlayer g).
Proof.
  split; [|split].
  - intros Hok Hst. split; [move_cases; congruence|].
    by destruct (currentPlayer g).
  - intros Hok Hst.
    assert (Hplay : status g = playing).
    { destruct (makeMove g pid pos) as [ok g'] eqn:Hm. cbn in Hok. subst ok.
      by apply makeMove_accepted in Hm as (? & _). }
    move_cases; congruence.
  - intros Hrej. by rewrite makeMove_rejected.
Qed.

Lemma turn_alternates_witness :
  currentPlayer (makeMove started "p1" 0).2 = O /\
  currentPlayer (makeMove xToWin "p1" 2).2 = X /\
  currentPlayer (makeMove started "p2" 0).2 = X.
Proof.
  destruct (turn_alternates started "p1" 0) as (Hgo & _ & _).
  destruct (turn_alternates xToWin "p1" 2) as (_ & Hend & _).
  destruct (turn_alternates started "p2" 0) as (_ & _ & Hrej).
  split; [apply Hgo; reflexivity|].
  split; [apply Hend; reflexivity | apply Hrej; reflexivity].
Defined.

(** ** Joining *)

(** C6: when a session already has two players, a further join is refused
    by [addPlayer], the handler answers 400 "Game is full", and the session
    and the [games] map stay as they were; and in no session, whatever
    the sequence of join and move requests after its creation, does the
    list of players grow beyond two. *)
Theorem third_join_rejected
    (games : gmap string TicTacToeGame) (gameId : string)
    (g : TicTacToeGame) (body : Body)
    (gameId' : string) (now : Z) (rs : list Request) :
  games !! gameId = Some g ->
  length (players g) = 2 ->
  addPlayer g (playerId body) (playerName body) = (false, g) /\
  joinGame games gameId body = (games, failure 400 "Game is full") /\
  length (players (session gameId' now rs)) <= 2.
Proof.
  intros Hg Hlen.
  assert (Hadd : addPlayer g (playerId body) (playerName body) = (false, g)).
  { unfold addPlayer. by rewrite Hlen. }
  split; [done|]. split.
  - unfold joinGame. by rewrite Hg, Hadd.
  - destruct (session_consistent gameId' now rs) as (_ & _ & Hst).
    destruct (status (session gameId' now rs)); lia.
Qed.

Lemma third_join_rejected_witness :
  addPlayer started "p3" "Cy" = (false, started) /\
  joinGame {["g" := started]} "g" (mkBody "p3" "Cy" 0)
    = ({["g" := started]}, failure 400 "Game is full") /\
  length (players (session "g" 0 (xWins ++ [Join "p3" "Cy"]))) <= 2.
Proof.
  apply (third_join_rejected {["g" := started]} "g" started
           (mkBody "p3" "Cy" 0) "g" 0 (xWins ++ [Join "p3" "Cy"])).
  - apply lookup_singleton_eq.
  - reflexivity.
Defined.

(** C9: joining does not look at who joins. In a session whose only
    player is p, a join carrying p's own id succeeds: p holds X, the new
    entry with the same id holds O, and the session is playing. *)
Theorem same_participant_joins_twice
    (games : gmap string TicTacToeGame) (gameId : string)
    (gameId' : string) (now : Z) (rs : list Request)
    (p : Player.t) (pname : string) (pos : Z) :
  games !! gameId = Some (session gameId' now rs) ->
  players (session gameId' now rs) = [p] ->
  exists g' : TicTacToeGame,
    addPlayer (session gameId' now rs) (Player.id p) pname = (true, g') /\
    joinGame games gameId (mkBody (Player.id p) pname pos)
      = (<[gameId := g']> games, success (getState g')) /\
    players g' = [p; Player.mk (Player.id p) pname O] /\
    Player.symbol p = X /\
    status g' = playing.
Proof.
  intros Hg Hps.
  destruct (session_consistent gameId' now rs) as (_ & Hsym & _).
  rewrite Hps in Hsym. cbn in Hsym. injection Hsym as HX.
  eexists. split.
  { unfold addPlayer. rewrite Hps. cbn. reflexivity. }
  split.
  { unfold joinGame. rewrite Hg. unfold addPlayer. rewrite Hps. cbn.
    reflexivity. }
  done.
Qed.

Lemma same_participant_joins_twice_witness :
  exists g' : TicTacToeGame,
    addPlayer (session "g" 0 [Join "p1" "Ann"]) "p1" "Ann again" = (true, g') /\
    joinGame {["g" := session "g" 0 [Join "p1" "Ann"]]} "g"
      (mkBody "p1" "Ann again" 0)
      = (<["g" := g']> {["g" := session "g" 0 [Join "p1" "Ann"]]},
         success (getState g')) /\
    players g' = [Player.mk "p1" "Ann" X; Player.mk "p1" "Ann again" O] /\
    X = X /\
    status g' = playing.
Proof.
  apply (same_participant_joins_twice
           {["g" := session "g" 0 [Join "p1" "Ann"]]} "g" "g" 0
           [Join "p1" "Ann"] (Player.mk "p1" "Ann" X) "Ann again" 0).
  - apply lookup_singleton_eq.
  - reflexivity.
Defined.

(** ** The board over a whole session *)

(** C7: along any sequence of join and move requests on a session, a
    cell that holds a mark at some point holds the same mark at every
    later point: it is neither overwritten nor cleared. *)
Theorem marked_cell_kept
    (gameId : string) (now : Z) (rs rs' : list Request)
    (i : nat) (m : Symbol) :
  board (session gameId now rs) !! i = Some (Some m) ->
  board (session gameId now (rs ++ rs')) !! i = Some (Some m).
Proof.
  intros Hi. unfold session. rewrite run_app. by apply run_keeps_marks.
Qed.

Lemma marked_cell_kept_witness :
  board (session "g" 0
           ((twoPlayers ++ [Move "p1" 0%Z])
            ++ [Move "p2" 0%Z; Move "p2" 4%Z; Join "p3" "Cy"])) !! 0
  = Some (Some X).
Proof.
  apply (marked_cell_kept "g" 0 (twoPlayers ++ [Move "p1" 0%Z])
           [Move "p2" 0%Z; Move "p2" 4%Z; Join "p3" "Cy"] 0 X).
  reflexivity.
Defined.

(** C8: in every session, after any sequence of join and move requests,
    the winner is set exactly when the status is finished; while the
    status is waiting or playing there is no winner. *)
Theorem winner_iff_finished (gameId : string) (now : Z) (rs : list Request) :
  (winner (session gameId now rs) <> None
   <-> status (session gameId now rs) = finished) /\
  (status (session gameId now rs) = waiting \/
   status (session gameId now rs) = playing ->
   winner (session gameId now rs) = None).
Proof.
  destruct (session_consistent gameId now rs) as (_ & _ & Hst).
  destruct (status (session gameId now rs)); destruct Hst as [_ Hw];
    (split; [split|]); try done; intros [?|?]; done.
Qed.

(** C10: a move whose cell index lies outside 0..8 is rejected and the
    session is unchanged; an accepted move always targets one of the nine
    cells, and the board of a session always has exactly nine cells. *)
Theorem off_board_move_rejected
    (gameId : string) (now : Z) (rs : list Request)
    (pid : string) (pos : Z) :
  (pos < 0 \/ 8 < pos)%Z ->
  makeMove (session gameId now rs) pid pos = (false, session gameId now rs) /\
  (forall (pid' : string) (pos' : Z),
     (makeMove (session gameId now rs) pid' pos').1 = true ->
     (0 <= pos' <= 8)%Z /\
     length (board (makeMove (session gameId now rs) pid' pos').2) = 9) /\
  length (board (session gameId now rs)) = 9.
Proof.
  intros Hout.
  destruct (session_consistent gameId now rs) as (Hlen & _).
  split; [|split; [|done]].
  - assert (Hc : cell (board (session gameId now rs)) pos = None).
    { apply cell_outside. lia. }
    unfold makeMove. rewrite Hc. by case_bool_decide.
  - intros pid' pos' Hok.
    destruct (makeMove _ pid' pos') as [ok g'] eqn:Hm. cbn in Hok. subst ok.
    apply makeMove_accepted in Hm as (_ & Hc & _ & Hb' & _).
    apply cell_some in Hc as (Hge & Hlt & _). cbn.
    rewrite Hb', length_insert. split; [lia | done].
Qed.

Lemma off_board_move_rejected_witness :
  makeMove started "p1" 9 = (false, started) /\
  makeMove started "p1" (-1) = (false, started).
Proof.
  split.
  - apply (off_board_move_rejected "g" 0 twoPlayers "p1" 9). lia.
  - apply (off_board_move_rejected "g" 0 twoPlayers "p1" (-1)). lia.
Defined.

(** ** The course of a session *)

Lemma step_session (gameId : string) (now : Z) (rs : list Request) (r : Request) :
  step (session gameId now rs) r = session gameId now (rs ++ [r]).
Proof. unfold session. by rewrite run_app. Qed.

Lemma step_rejected_or_status (g : TicTacToeGame) (r : Request) :
  consistent g -> statusRank (status g) <= statusRank (status (step g r)).
Proof.
  intros (_ & _ & Hst). destruct r as [pid pname | pid pos]; cbn.
  - unfold addPlayer.
    destruct (Nat.ltb_spec (length (players g)) 2) as [Hlt|Hge]; cbn; [|lia].
    destruct (status g); destruct Hst as [Hlen _]; repeat case_match; cbn; lia.
  - destruct (makeMove g pid pos) as [[] g'] eqn:Hm; cbn.
    + apply makeMove_accepted in Hm as Hacc. destruct Hacc as (Hplay & _).
      rewrite Hplay. cbn. move_cases; rewrite ?Hplay; cbn; lia.
    + pose proof (makeMove_rejected g pid pos) as Hrej.
      rewrite Hm in Hrej. cbn in Hrej. by rewrite Hrej.
Qed.

Lemma run_status_rank (rs : list Request) (g : TicTacToeGame) :
  consistent g -> statusRank (status g) <= statusRank (status (run g rs)).
Proof.
  revert g. induction rs as [|r rs IH]; intros g Hg; cbn; [done|].
  etrans; [by apply (step_rejected_or_status g r)|].
  by apply IH, step_consistent.
Qed.

(** A finished session ignores every further request. *)
Lemma step_finished (g : TicTacToeGame) (r : Request) :
  consistent g -> status g = finished -> step g r = g.
Proof.
  intros (_ & _ & Hst) Hfin. rewrite Hfin in Hst. destruct Hst as [Hlen _].
  destruct r as [pid pname | pid pos]; cbn.
  - unfold addPlayer. by rewrite Hlen.
  - unfold makeMove. by rewrite Hfin.
Qed.

Lemma run_finished (rs : list Request) (g : TicTacToeGame) :
  consistent g -> status g = finished -> run g rs = g.
Proof.
  intros Hg Hfin. induction rs as [|r rs IH]; cbn; [done|].
  by rewrite step_finished.
Qed.

Lemma step_identity (g : TicTacToeGame) (r : Request) :
  id (step g r) = id g /\ createdAt (step g r) = createdAt g /\
  players g `prefix_of` players (step g r).
Proof.
  destruct r as [pid pname | pid pos]; cbn.
  - join_cases; repeat split; try done; by apply prefix_app_r.
  - move_cases; done.
Qed.

Lemma run_identity (rs : list Request) (g : TicTacToeGame) :
  id (run g rs) = id g /\ createdAt (run g rs) = createdAt g /\
  players g `prefix_of` players (run g rs).
Proof.
  revert g. induction rs as [|r rs IH]; intros g; [done|].
  change (run g (r :: rs)) with (run (step g r) rs).
  destruct (IH (step g r)) as (-> & -> & Hpre).
  destruct (step_identity g r) as (-> & -> & Hpre').
  repeat split. by etrans.
Qed.

(** The three ways an accepted move can end, by the tests [makeMove]
    runs on the board after the write. *)
Lemma makeMove_accepted_result
    (g g' : TicTacToeGame) (pid : string) (pos : Z) :
  makeMove g pid pos = (true, g') ->
  (checkWinner (board g') = true /\ status g' = finished /\
   winner g' = Some (won (currentPlayer g)) /\
   currentPlayer g' = currentPlayer g)
  \/ (checkWinner (board g') = false /\
      forallb (fun c : option Symbol => bool_decide (c <> None)) (board g')
      = true /\
      status g' = finished /\ winner g' = Some draw /\
      currentPlayer g' = currentPlayer g)
  \/ (checkWinner (board g') = false /\
      forallb (fun c : option Symbol => bool_decide (c <> None)) (board g')
      = false /\
      status g' = status g /\ winner g' = winner g /\
      currentPlayer g' = otherSymbol (currentPlayer g)).
Proof.
  intros Hm.
  move_cases;
    first [ left; by repeat split
          | right; left; by repeat split
          | right; right; by repeat split ].
Qed.

(** ** Counting marks and finding lines *)

Lemma countMark_insert
    (b : list (option Symbol)) (i : nat) (m m' : Symbol) :
  b !! i = Some None ->
  countMark m' (<[i := Some m]> b)
  = countMark m' b + (if decide (m' = m) then 1 else 0).
Proof.
  unfold countMark. revert i.
  induction b as [|c b IH]; intros [|i] Hi; simplify_eq/=.
  - rewrite !filter_cons. repeat case_decide; simplify_eq/=; lia.
  - rewrite !filter_cons. specialize (IH i Hi).
    repeat case_decide; simplify_eq/=; lia.
Qed.

Lemma countMark_full (b : list (option Symbol)) :
  (forall c, c ∈ b -> c <> None) ->
  countMark X b + countMark O b = length b.
Proof.
  unfold countMark. induction b as [|c b IH]; intros Hall; [done|].
  rewrite !filter_cons. cbn.
  assert (Hc : c <> None) by (apply Hall; left).
  assert (IH' : length (filter (fun c => c = Some X) b)
                + length (filter (fun c => c = Some O) b) = length b).
  { apply IH. intros c' Hc'. apply Hall. by right. }
  destruct c as [[]|]; [| |done]; repeat case_decide; simplify_eq/=; lia.
Qed.

Lemma boardFull_count (b : list (option Symbol)) :
  length b = 9 -> boardFull b -> countMark X b + countMark O b = 9.
Proof.
  intros Hlen Hfull. rewrite <- Hlen. apply countMark_full.
  intros c [i Hi]%list_elem_of_lookup.
  assert (Hlt : i < 9) by (rewrite <- Hlen; by eapply lookup_lt_Some).
  destruct (Hfull i Hlt) as [m Hm]. congruence.
Qed.

Lemma lineOf_lineComplete (m : Symbol) (b : list (option Symbol)) :
  lineOf m b -> lineComplete b.
Proof. intros (i & j & k & H). by exists i, j, k, m. Qed.

(** A line that appears with a write of [m] into an empty cell is a line
    of [m]. *)
Lemma new_line_of_mark (b : list (option Symbol)) (p : nat) (m : Symbol) :
  p < length b ->
  ~ lineComplete b ->
  lineComplete (<[p := Some m]> b) ->
  lineOf m (<[p := Some m]> b).
Proof.
  intros Hp Hno (i & j & k & m' & Hin & Hi & Hj & Hk).
  destruct (decide (m' = m)) as [->|Hne]; [by exists i, j, k|].
  exfalso. apply Hno. exists i, j, k, m'. split; [done|].
  assert (Hkeep : forall q, <[p := Some m]> b !! q = Some (Some m') ->
                            b !! q = Some (Some m')).
  { intros q Hq. destruct (decide (p = q)) as [->|Hpq].
    - rewrite list_lookup_insert_eq in Hq by done. congruence.
    - by rewrite list_lookup_insert_ne in Hq. }
  auto.
Qed.

Lemma empty_board_no_line : ~ lineComplete (replicate 9 None).
Proof.
  intros (i & j & k & m & _ & Hi & _).
  apply lookup_replicate in Hi as [Hi _]. discriminate.
Qed.

Lemma empty_board_not_full : ~ boardFull (replicate 9 None).
Proof. intros Hfull. destruct (Hfull 0) as [m Hm]; [lia | discriminate]. Qed.

Lemma empty_board_count (m : Symbol) : countMark m (replicate 9 None) = 0.
Proof. reflexivity. Qed.

(** ** The board, the turn and the winner fit the status *)

Lemma newGame_played (gameId : string) (now : Z) : played (newGame gameId now).
Proof. by split. Qed.

Lemma addPlayer_played (g : TicTacToeGame) (pid pname : string) :
  consistent g -> played g -> played (addPlayer g pid pname).2.
Proof.
  intros (_ & _ & Hst) Hplayed. unfold addPlayer.
  destruct (Nat.ltb_spec (length (players g)) 2) as [Hlt|Hge]; [|done].
  unfold played in *. cbn.
  destruct (status g); destruct Hst as [Hlen _]; try lia.
  destruct Hplayed as [Hb Hcur].
  destruct (length _ =? 2); [|split; [exact Hb | exact Hcur]].
  rewrite Hb, Hcur.
  split; [apply empty_board_no_line|].
  split; [apply empty_board_not_full | reflexivity].
Qed.

Lemma makeMove_played (g : TicTacToeGame) (pid : string) (pos : Z) :
  consistent g -> played g -> played (makeMove g pid pos).2.
Proof.
  intros (Hlen & _ & _) Hplayed.
  destruct (makeMove g pid pos) as [[] g'] eqn:Hm; cbn; cycle 1.
  { pose proof (makeMove_rejected g pid pos) as Hrej.
    rewrite Hm in Hrej. cbn in Hrej. by rewrite Hrej. }
  pose proof (makeMove_accepted _ _ _ _ Hm) as (Hplay & Hc & _ & Hb' & _).
  apply cell_some in Hc as (_ & Hlt & Hempty).
  unfold played in Hplayed. rewrite Hplay in Hplayed.
  destruct Hplayed as (Hnoline & _ & Hcount).
  assert (Hlen' : length (board g') = 9) by (by rewrite Hb', length_insert).
  assert (HX : countMark X (board g')
               = countMark X (board g)
                 + (if decide (X = currentPlayer g) then 1 else 0)).
  { rewrite Hb'. by apply countMark_insert. }
  assert (HO : countMark O (board g')
               = countMark O (board g)
                 + (if decide (O = currentPlayer g) then 1 else 0)).
  { rewrite Hb'. by apply countMark_insert. }
  unfold played.
  destruct (makeMove_accepted_result _ _ _ _ Hm)
    as [(Hwin & -> & Hw & Hcur) | [(Hwin & Hall & -> & Hw & Hcur)
                                  | (Hwin & Hall & -> & Hw & Hcur)]].
  - split.
    { rewrite Hcur. destruct (currentPlayer g);
        repeat case_decide; simplify_eq; lia. }
    left. split; [by rewrite Hcur|]. rewrite Hcur, Hb'.
    apply new_line_of_mark; [done | done |].
    rewrite <- Hb'. by apply checkWinner_lineComplete.
  - split.
    { rewrite Hcur. destruct (currentPlayer g);
        repeat case_decide; simplify_eq; lia. }
    right. split; [done|]. split; [by apply every_cell_boardFull|].
    intros Hline%checkWinner_lineComplete. congruence.
  - rewrite Hplay. split.
    { intros Hline%checkWinner_lineComplete. congruence. }
    split.
    { intros Hfull%every_cell_boardFull; [congruence | done]. }
    rewrite Hcur. destruct (currentPlayer g); cbn;
      repeat case_decide; simplify_eq; lia.
Qed.

Lemma run_played (rs : list Request) (g : TicTacToeGame) :
  consistent g -> played g -> played (run g rs).
Proof.
  revert g. induction rs as [|r rs IH]; intros g Hg Hp; [done|].
  change (run g (r :: rs)) with (run (step g r) rs).
  apply IH; [by apply step_consistent|].
  destruct r; cbn; [by apply addPlayer_played | by apply makeMove_played].
Qed.

Lemma session_played (gameId : string) (now : Z) (rs : list Request) :
  played (session gameId now rs).
Proof.
  apply run_played; [apply newGame_consistent | apply newGame_played].
Qed.

(** When both entries of a session carry one id, [find] always returns
    the first one, which holds X: on O's turn no request changes anything. *)
Lemma step_same_id (g : TicTacToeGame) (r : Request) (p q : Player.t) :
  consistent g ->
  players g = [p; q] -> Player.id q = Player.id p -> currentPlayer g = O ->
  step g r = g.
Proof.
  intros (_ & Hsym & _) Hps Hid Hcur. rewrite Hps in Hsym. cbn in Hsym.
  injection Hsym as HpX HqO.
  destruct r as [pid pname | pid pos]; cbn.
  - unfold addPlayer. by rewrite Hps.
  - apply makeMove_rejected, makeMove_rejected_grounds.
    right; right. unfold notTheirTurn, findPlayer. rewrite Hps, Hcur. cbn.
    rewrite Hid. case_bool_decide; cbn; congruence.
Qed.

Lemma run_same_id (rs : list Request) (g : TicTacToeGame) (p q : Player.t) :
  consistent g ->
  players g = [p; q] -> Player.id q = Player.id p -> currentPlayer g = O ->
  run g rs = g.
Proof.
  intros Hg Hps Hid Hcur. induction rs as [|r rs IH]; [done|].
  change (run g (r :: rs)) with (run (step g r) rs).
  by rewrite (step_same_id g r p q).
Qed.

(** ** Properties of whole sessions *)

(** X1: the status of a session only moves forward, waiting, then
    playing, then finished, and a single request advances it by at most
    one stage. *)
Theorem status_never_goes_back
    (gameId : string) (now : Z) (rs rs' : list Request) (r : Request) :
  statusRank (status (session gameId now rs))
  <= statusRank (status (session gameId now (rs ++ rs'))) /\
  statusRank (status (session gameId now (rs ++ [r])))
  <= statusRank (status (session gameId now rs)) + 1.
Proof.
  split.
  - unfold session. rewrite run_app.
    apply run_status_rank, run_consistent, newGame_consistent.
  - rewrite <- step_session.
    generalize (session gameId now rs). intros g.
    destruct r as [pid pname | pid pos]; cbn.
    + unfold addPlayer. destruct (_ <? 2); cbn; [|lia].
      destruct (_ =? 2); destruct (status g); cbn; lia.
    + destruct (makeMove g pid pos) as [[] g'] eqn:Hm; cbn.
      * apply makeMove_accepted in Hm as (-> & _).
        destruct (status g'); cbn; lia.
      * pose proof (makeMove_rejected g pid pos) as Hrej.
        rewrite Hm in Hrej. cbn in Hrej. rewrite Hrej by done. lia.
Qed.

(** X2: once a session is finished, no further join or move request
    changes anything in it. *)
Theorem finished_session_frozen
    (gameId : string) (now : Z) (rs rs' : list Request) :
  status (session gameId now rs) = finished ->
  session gameId now (rs ++ rs') = session gameId now rs.
Proof.
  intros Hfin. unfold session. rewrite run_app.
  apply run_finished; [apply session_consistent | exact Hfin].
Qed.

Lemma finished_session_frozen_witness :
  session "g" 0 (xWins ++ [Move "p2" 5%Z; Join "p3" "Cy"; Move "p1" 8%Z])
  = session "g" 0 xWins.
Proof.
  apply (finished_session_frozen "g" 0 xWins
           [Move "p2" 5%Z; Join "p3" "Cy"; Move "p1" 8%Z]).
  reflexivity.
Defined.

(** X3: a session keeps the id and the creation time it was constructed
    with; players are only ever appended, never removed or reordered, and
    the first holds X and the second O. *)
Theorem session_identity
    (gameId : string) (now : Z) (rs rs' : list Request) :
  id (session gameId now rs) = gameId /\
  createdAt (session gameId now rs) = now /\
  players (session gameId now rs)
    `prefix_of` players (session gameId now (rs ++ rs')) /\
  Player.symbol <$> players (session gameId now rs)
  = take (length (players (session gameId now rs))) [X; O].
Proof.
  destruct (run_identity rs (newGame gameId now)) as (Hid & Ht & _).
  split; [exact Hid|]. split; [exact Ht|]. split.
  - unfold session. rewrite run_app. apply run_identity.
  - apply session_consistent.
Qed.

(** X4: the winner is decided by the board. A session won by a mark has a
    line of three of that mark, placed by the last move; a draw has a full
    board without any line; and a session that is not finished has neither
    a complete line nor a full board. *)
Theorem winner_decided_by_board
    (gameId : string) (now : Z) (rs : list Request) (m : Symbol) :
  (winner (session gameId now rs) = Some (won m) ->
   lineOf m (board (session gameId now rs)) /\
   currentPlayer (session gameId now rs) = m) /\
  (winner (session gameId now rs) = Some draw ->
   boardFull (board (session gameId now rs)) /\
   ~ lineComplete (board (session gameId now rs))) /\
  (status (session gameId now rs) <> finished ->
   ~ lineComplete (board (session gameId now rs)) /\
   ~ boardFull (board (session gameId now rs))).
Proof.
  pose proof (session_consistent gameId now rs) as (_ & _ & Hst).
  pose proof (session_played gameId now rs) as Hp. unfold played in Hp.
  generalize dependent (session gameId now rs). intros g Hst Hp.
  destruct (status g).
  - destruct Hst as [_ Hw], Hp as [Hb _]. rewrite Hw, Hb.
    split; [done|]. split; [done|]. intros _.
    split; [apply empty_board_no_line | apply empty_board_not_full].
  - destruct Hst as [_ Hw], Hp as (Hl & Hf & _). rewrite Hw.
    split; [done|]. split; [done|]. done.
  - destruct Hp as (_ & [[Hw Hl] | (Hw & Hf & Hl)]); rewrite Hw.
    + split; [|split; [done|done]]. intros [= <-]. done.
    + split; [done|]. split; [done|done].
Qed.

Lemma winner_decided_by_board_witness :
  lineOf X (board (session "g" 0 xWins)) /\
  currentPlayer (session "g" 0 xWins) = X.
Proof.
  apply (winner_decided_by_board "g" 0 xWins X). reflexivity.
Defined.

(** X5: the marks on the board follow the turns. X never has fewer marks
    than O and at most one more; while the session is playing it is X's
    turn exactly when both have as many marks; and a winner has placed the
    last mark: X wins one mark ahead, O wins level. *)
Theorem marks_follow_turns (gameId : string) (now : Z) (rs : list Request) :
  (countMark X (board (session gameId now rs))
   = countMark O (board (session gameId now rs))
   \/ countMark X (board (session gameId now rs))
      = countMark O (board (session gameId now rs)) + 1) /\
  (status (session gameId now rs) = playing ->
   (currentPlayer (session gameId now rs) = X <->
    countMark X (board (session gameId now rs))
    = countMark O (board (session gameId now rs)))) /\
  (winner (session gameId now rs) = Some (won X) ->
   countMark X (board (session gameId now rs))
   = countMark O (board (session gameId now rs)) + 1) /\
  (winner (session gameId now rs) = Some (won O) ->
   countMark X (board (session gameId now rs))
   = countMark O (board (session gameId now rs))).
Proof.
  pose proof (session_consistent gameId now rs) as (_ & _ & Hst).
  pose proof (session_played gameId now rs) as Hp. unfold played in Hp.
  generalize dependent (session gameId now rs). intros g Hst Hp.
  destruct (status g).
  - destruct Hst as [_ Hw], Hp as [Hb Hcur]. rewrite Hw, Hb, Hcur.
    repeat split; try done. left; reflexivity.
  - destruct Hst as [_ Hw], Hp as (_ & _ & Hcount). rewrite Hw.
    destruct (currentPlayer g); repeat split; count_marks.
  - destruct Hp as (Hcount & [[Hw _] | (Hw & _)]); rewrite Hw;
      destruct (currentPlayer g); repeat split; count_marks.
Qed.

Lemma marks_follow_turns_witness :
  countMark X (board (session "g" 0 xWins))
  = countMark O (board (session "g" 0 xWins)) + 1.
Proof.
  apply (marks_follow_turns "g" 0 xWins). reflexivity.
Defined.

(** X6: a drawn session always ends with five X and four O on the board,
    the last mark being X's. *)
Theorem draw_has_five_X (gameId : string) (now : Z) (rs : list Request) :
  winner (session gameId now rs) = Some draw ->
  countMark X (board (session gameId now rs)) = 5 /\
  countMark O (board (session gameId now rs)) = 4 /\
  currentPlayer (session gameId now rs) = X.
Proof.
  pose proof (session_consistent gameId now rs) as (Hlen & _ & Hst).
  pose proof (session_played gameId now rs) as Hp. unfold played in Hp.
  generalize dependent (session gameId now rs). intros g Hlen Hst Hp Hw.
  destruct (status g); [destruct Hst; congruence | destruct Hst; congruence |].
  destruct Hp as (Hcount & [[Hw' _] | (_ & Hfull & _)]); [congruence|].
  pose proof (boardFull_count _ Hlen Hfull) as Hsum.
  destruct (currentPlayer g); repeat split; count_marks.
Qed.

Lemma draw_has_five_X_witness :
  countMark X (board (session "g" 0 drawGame)) = 5 /\
  countMark O (board (session "g" 0 drawGame)) = 4 /\
  currentPlayer (session "g" 0 drawGame) = X.
Proof. apply (draw_has_five_X "g" 0 drawGame). reflexivity. Defined.

(** X7: when the two entries of a session carry the same participant id
    (the join of C9), the session is stuck as soon as it is O's turn:
    [find] returns the X entry for that id, so every later move is
    rejected and the session never changes again. *)
Theorem same_id_session_stuck
    (gameId : string) (now : Z) (rs rs' : list Request) (p q : Player.t) :
  players (session gameId now rs) = [p; q] ->
  Player.id q = Player.id p ->
  currentPlayer (session gameId now rs) = O ->
  session gameId now (rs ++ rs') = session gameId now rs /\
  forall (pid : string) (pos : Z),
    makeMove (session gameId now rs) pid pos
    = (false, session gameId now rs).
Proof.
  intros Hps Hid Hcur. split.
  - unfold session. rewrite run_app.
    apply (run_same_id rs' _ p q); [apply session_consistent | done..].
  - intros pid pos.
    pose proof (step_same_id _ (Move pid pos) p q
                  (session_consistent gameId now rs) Hps Hid Hcur) as Hstep.
    cbn in Hstep.
    destruct (makeMove (session gameId now rs) pid pos) as [[] g'] eqn:Hm;
      cbn in Hstep; subst g'; [|done].
    apply makeMove_accepted in Hm as (_ & Hc & _ & Hb' & _).
    apply cell_some in Hc as (_ & Hlt & Hempty).
    rewrite Hb' in Hempty at 1.
    rewrite list_lookup_insert_eq in Hempty by done. discriminate.
Qed.

Lemma same_id_session_stuck_witness :
  session "g" 0
    ([Join "p1" "Ann"; Join "p1" "Ann again"; Move "p1" 0%Z]
     ++ [Move "p1" 4%Z; Move "p1" 8%Z])
  = sameIdTwice /\
  forall (pid : string) (pos : Z),
    makeMove sameIdTwice pid pos = (false, sameIdTwice).
Proof.
  apply (same_id_session_stuck "g" 0
           [Join "p1" "Ann"; Join "p1" "Ann again"; Move "p1" 0%Z]
           [Move "p1" 4%Z; Move "p1" 8%Z]
           (Player.mk "p1" "Ann" X) (Player.mk "p1" "Ann again" O));
    reflexivity.
Defined.

(** ** The handlers and the [games] map *)

Lemma joinGame_unfold (games : gmap string TicTacToeGame)
    (gameId : string) (body : Body) (g : TicTacToeGame) :
  games !! gameId = Some g ->
  joinGame games gameId body
  = if (addPlayer g (playerId body) (playerName body)).1
    then (<[gameId := (addPlayer g (playerId body) (playerName body)).2]> games,
          success (getState (addPlayer g (playerId body) (playerName body)).2))
    else (games, failure 400 "Game is full").
Proof.
  intros Hg. unfold joinGame. rewrite Hg.
  by destruct (addPlayer g (playerId body) (playerName body)) as [[] g'].
Qed.

Lemma submitMove_unfold (games : gmap string TicTacToeGame)
    (gameId : string) (body : Body) (g : TicTacToeGame) :
  games !! gameId = Some g ->
  submitMove games gameId body
  = if (makeMove g (playerId body) (position body)).1
    then (<[gameId := (makeMove g (playerId body) (position body)).2]> games,
          success (getState (makeMove g (playerId body) (position body)).2))
    else (games, failure 400 "Invalid move").
Proof.
  intros Hg. unfold submitMove. rewrite Hg.
  by destruct (makeMove g (playerId body) (position body)) as [[] g'].
Qed.

Lemma addPlayer_accepts (g : TicTacToeGame) (pid pname : string) :
  (addPlayer g pid pname).1 = true <-> length (players g) < 2.
Proof.
  unfold addPlayer.
  destruct (Nat.ltb_spec (length (players g)) 2); cbn; split; (done || lia).
Qed.

(** X8: the answer to a join request tells the state of the addressed
    game. It is 404 "Game not found" exactly when no game is stored under
    the id, 400 "Game is full" exactly when the stored game has two
    players, and a snapshot exactly when it has fewer; both failures
    leave the [games] map untouched. *)
Theorem joinGame_answers
    (games : gmap string TicTacToeGame) (gameId : string) (body : Body) :
  ((joinGame games gameId body).2 = failure 404 "Game not found"
   <-> games !! gameId = None) /\
  ((joinGame games gameId body).2 = failure 400 "Game is full"
   <-> exists g, games !! gameId = Some g /\ ~ length (players g) < 2) /\
  ((exists s, (joinGame games gameId body).2 = success s)
   <-> exists g, games !! gameId = Some g /\ length (players g) < 2) /\
  (forall code error,
     (joinGame games gameId body).2 = failure code error ->
     (joinGame games gameId body).1 = games).
Proof.
  destruct (games !! gameId) as [g|] eqn:Hg.
  - rewrite (joinGame_unfold _ _ _ _ Hg).
    pose proof (addPlayer_accepts g (playerId body) (playerName body)) as Hacc.
    destruct (addPlayer g (playerId body) (playerName body)).1; cbn.
    + assert (Hlt : length (players g) < 2) by by apply Hacc.
      repeat split; try done; try (intros (g0 & [= <-] & ?); done); eauto.
    + assert (Hge : ~ length (players g) < 2).
      { intros Hlt. apply Hacc in Hlt. done. }
      repeat split; try done; eauto;
        try (intros (g0 & [= <-] & ?); done); intros [s Hs]; done.
  - unfold joinGame. rewrite Hg. cbn.
    repeat split; try done; try (intros (g0 & ? & ?); done);
      intros [s Hs]; done.
Qed.

(** X9: the answer to a move request: 404 "Game not found" exactly when no
    game is stored under the id, and for a stored game 400 "Invalid move"
    exactly when [makeMove] refuses; then the [games] map is untouched.
    Otherwise the answer is the snapshot of the game after the move, which
    is what the map now holds. *)
Theorem submitMove_answers
    (games : gmap string TicTacToeGame) (gameId : string) (body : Body) :
  ((submitMove games gameId body).2 = failure 404 "Game not found"
   <-> games !! gameId = None) /\
  (forall g, games !! gameId = Some g ->
     ((submitMove games gameId body).2 = failure 400 "Invalid move"
      <-> (makeMove g (playerId body) (position body)).1 = false) /\
     ((makeMove g (playerId body) (position body)).1 = true ->
      submitMove games gameId body
      = (<[gameId := (makeMove g (playerId body) (position body)).2]> games,
         success
           (getState (makeMove g (playerId body) (position body)).2)))) /\
  (forall code error,
     (submitMove games gameId body).2 = failure code error ->
     (submitMove games gameId body).1 = games).
Proof.
  destruct (games !! gameId) as [g|] eqn:Hg.
  - unfold submitMove. rewrite Hg.
    destruct (makeMove g (playerId body) (position body)) as [[] g'] eqn:Hm;
      cbn; (split; [done|]); (split; [|done]);
      intros g0 [= <-]; rewrite Hm; cbn; done.
  - unfold submitMove. rewrite Hg. cbn. by repeat split.
Qed.

(** Every stored game is a session created under the key it is stored at. *)
Lemma serve_sessions (games : gmap string TicTacToeGame) (req : HttpRequest) :
  (forall k g, games !! k = Some g -> exists now rs, g = session k now rs) ->
  forall k g, serve games req !! k = Some g ->
              exists now rs, g = session k now rs.
Proof.
  intros Hall k g. destruct req as [gid now body | gid body | gid body]; cbn.
  - destruct (decide (gid = k)) as [->|Hne].
    + rewrite lookup_insert_eq. intros [= <-]. by exists now, [].
    + rewrite lookup_insert_ne by done. apply Hall.
  - destruct (games !! gid) as [g0|] eqn:Hg0;
      [|unfold joinGame; rewrite Hg0; apply Hall].
    rewrite (joinGame_unfold _ _ _ _ Hg0).
    destruct (addPlayer g0 (playerId body) (playerName body)).1 eqn:Hok;
      cbn; [|apply Hall].
    destruct (decide (gid = k)) as [->|Hne];
      [|rewrite lookup_insert_ne by done; apply Hall].
    rewrite lookup_insert_eq. intros [= <-].
    destruct (Hall _ _ Hg0) as (now & rs & ->).
    exists now, (rs ++ [Join (playerId body) (playerName body)]).
    by rewrite <- step_session.
  - destruct (games !! gid) as [g0|] eqn:Hg0;
      [|unfold submitMove; rewrite Hg0; apply Hall].
    rewrite (submitMove_unfold _ _ _ _ Hg0).
    destruct (makeMove g0 (playerId body) (position body)).1 eqn:Hok;
      cbn; [|apply Hall].
    destruct (decide (gid = k)) as [->|Hne];
      [|rewrite lookup_insert_ne by done; apply Hall].
    rewrite lookup_insert_eq. intros [= <-].
    destruct (Hall _ _ Hg0) as (now & rs & ->).
    exists now, (rs ++ [Move (playerId body) (position body)]).
    by rewrite <- step_session.
Qed.

Lemma foldl_serve_sessions (reqs : list HttpRequest)
    (games : gmap string TicTacToeGame) :
  (forall k g, games !! k = Some g -> exists now rs, g = session k now rs) ->
  forall k g, foldl serve games reqs !! k = Some g ->
              exists now rs, g = session k now rs.
Proof.
  revert games. induction reqs as [|req reqs IH]; intros games Hall; [done|].
  cbn. apply IH. by apply serve_sessions.
Qed.

(** X10: a request changes at most the game it addresses: every game
    stored under another id is left exactly as it was. *)
Theorem other_games_untouched
    (games : gmap string TicTacToeGame) (gameId k : string)
    (now : Z) (body : Body) :
  k <> gameId ->
  (createGame games gameId now body).1 !! k = games !! k /\
  (joinGame games gameId body).1 !! k = games !! k /\
  (submitMove games gameId body).1 !! k = games !! k.
Proof.
  intros Hne. split; [|split].
  - cbn. by rewrite lookup_insert_ne.
  - destruct (games !! gameId) as [g|] eqn:Hg.
    + rewrite (joinGame_unfold _ _ _ _ Hg).
      destruct (addPlayer g _ _).1; cbn; [by rewrite lookup_insert_ne | done].
    + unfold joinGame. by rewrite Hg.
  - destruct (games !! gameId) as [g|] eqn:Hg.
    + rewrite (submitMove_unfold _ _ _ _ Hg).
      destruct (makeMove g _ _).1; cbn; [by rewrite lookup_insert_ne | done].
    + unfold submitMove. by rewrite Hg.
Qed.

Lemma other_games_untouched_witness :
  (submitMove {["g" := started; "h" := xToWin]} "h" (mkBody "p1" "Ann" 2)).1
    !! "g"%string
  = ({["g" := started; "h" := xToWin]} : gmap string TicTacToeGame)
      !! "g"%string.
Proof.
  apply (other_games_untouched {["g" := started; "h" := xToWin]} "h" "g" 0
           (mkBody "p1" "Ann" 2)).
  discriminate.
Defined.

(** X11: what a handler answers is what the server then holds. After a
    create, and after a successful join or move, reading the game back
    gives the very snapshot that was returned; after a failed join or move
    reading it back gives what it gave before. *)
Theorem answer_is_stored
    (games : gmap string TicTacToeGame) (gameId : string)
    (now : Z) (body : Body) :
  getGame (createGame games gameId now body).1 gameId
  = (createGame games gameId now body).2 /\
  (forall s, (joinGame games gameId body).2 = success s ->
             getGame (joinGame games gameId body).1 gameId = success s) /\
  (forall s, (submitMove games gameId body).2 = success s ->
             getGame (submitMove games gameId body).1 gameId = success s) /\
  (forall code error,
     (joinGame games gameId body).2 = failure code error ->
     getGame (joinGame games gameId body).1 gameId = getGame games gameId) /\
  (forall code error,
     (submitMove games gameId body).2 = failure code error ->
     getGame (submitMove games gameId body).1 gameId = getGame games gameId).
Proof.
  unfold getGame. split; [cbn; by rewrite lookup_insert_eq|].
  destruct (games !! gameId) as [g|] eqn:Hg.
  - rewrite (joinGame_unfold _ _ _ _ Hg), (submitMove_unfold _ _ _ _ Hg).
    destruct (addPlayer g _ _).1, (makeMove g _ _).1; cbn;
      rewrite ?lookup_insert_eq, ?Hg; repeat split; congruence.
  - unfold joinGame, submitMove. rewrite Hg. cbn. rewrite Hg.
    repeat split; congruence.
Qed.

(** X12: whatever requests a server that started empty has handled, every
    game it stores is a session: it was constructed with the id it is
    stored under and then only changed by joins and moves. So all session
    properties hold of it, among them: its id is its key, it has at most
    two players, and its board has nine cells. *)
Theorem stored_games_are_sessions
    (reqs : list HttpRequest) (k : string) (g : TicTacToeGame) :
  serveAll reqs !! k = Some g ->
  (exists now rs, g = session k now rs) /\
  id g = k /\ length (players g) <= 2 /\ length (board g) = 9.
Proof.
  intros Hk.
  assert (Hempty : forall k' g', (∅ : gmap string TicTacToeGame) !! k' = Some g' ->
                     exists now rs, g' = session k' now rs).
  { intros k' g' Hk'. by rewrite lookup_empty in Hk'. }
  destruct (foldl_serve_sessions reqs ∅ Hempty k g Hk) as (now & rs & ->).
  split; [eauto|].
  destruct (run_identity rs (newGame k now)) as (Hid & _).
  destruct (session_consistent k now rs) as (Hlen & _ & Hst).
  split; [exact Hid|]. split; [|exact Hlen].
  destruct (status (session k now rs)); lia.
Qed.

Lemma stored_games_are_sessions_witness :
  id started = "g"%string /\ length (players started) <= 2.
Proof.
  destruct (stored_games_are_sessions
              [PostGames "g" 0 p1Body;
               PostJoin "g" (mkBody "p1" "Ann" 0);
               PostJoin "nowhere" (mkBody "p9" "Zed" 0);
               PostJoin "g" (mkBody "p2" "Bob" 0)] "g" started)
    as (_ & Hid & Hlen & _); [reflexivity|].
  split; [exact Hid | exact Hlen].
Defined.

(** X13: the list endpoint returns one snapshot per stored game, and
    exactly the snapshots of the stored games; a create request under a
    fresh id makes the list one longer, and join and move requests never
    change its length. *)
Theorem lobby_lists_every_game
    (games : gmap string TicTacToeGame) (s : Snapshot)
    (gameId : string) (now : Z) (body : Body) :
  length (listGames games) = size games /\
  (s ∈ listGames games
   <-> exists k g, games !! k = Some g /\ s = getState g) /\
  length (listGames (createGame games gameId now body).1)
  = length (listGames games)
    + (if games !! gameId is None then 1 else 0) /\
  length (listGames (joinGame games gameId body).1)
  = length (listGames games) /\
  length (listGames (submitMove games gameId body).1)
  = length (listGames games).
Proof.
  assert (Hlen : forall m : gmap string TicTacToeGame,
             length (listGames m) = size m).
  { intros m. unfold listGames. by rewrite length_fmap, length_map_to_list. }
  split; [apply Hlen|]. split.
  { unfold listGames. rewrite list_elem_of_fmap. split.
    - intros ([k g] & -> & Hin%elem_of_map_to_list). by exists k, g.
    - intros (k & g & Hk & ->). exists (k, g).
      split; [done | by apply elem_of_map_to_list]. }
  rewrite !Hlen. split; [|split].
  - cbn. rewrite map_size_insert. destruct (games !! gameId); cbn; lia.
  - destruct (games !! gameId) as [g|] eqn:Hg.
    + rewrite (joinGame_unfold _ _ _ _ Hg).
      destruct (addPlayer g _ _).1; cbn; [|done].
      by rewrite map_size_insert_Some.
    + unfold joinGame. by rewrite Hg.
  - destruct (games !! gameId) as [g|] eqn:Hg.
    + rewrite (submitMove_unfold _ _ _ _ Hg).
      destruct (makeMove g _ _).1; cbn; [|done].
      by rewrite map_size_insert_Some.
    + unfold submitMove. by rewrite Hg.
Qed.

(** ** Broadcasts *)

Lemma broadcastToGame_delivered
    (clients : list Client.t) (gameId : string) (s : Snapshot) :
  delivered clients (broadcastToGame clients gameId (game_update s))
    gameId (success s).
Proof.
  unfold delivered, broadcastToGame. split; [apply length_fmap|].
  intros i c Hc. rewrite list_lookup_fmap, Hc. cbn. eexists. split; [done|].
  destruct (bool_decide_reflect (Client.gameId c = Some gameId)) as [Hg|Hg];
    destruct (bool_decide_reflect (Client.readyState c = OPEN)) as [Ho|Ho];
    cbn; repeat split; try done.
  - by rewrite bool_decide_eq_true_2.
  - rewrite bool_decide_eq_false_2 by tauto. by rewrite app_nil_r.
  - rewrite bool_decide_eq_false_2 by tauto. by rewrite app_nil_r.
  - rewrite bool_decide_eq_false_2 by tauto. by rewrite app_nil_r.
Qed.

Lemma nothing_delivered
    (clients : list Client.t) (gameId : string) (code : nat) (error : string) :
  delivered clients clients gameId (failure code error).
Proof.
  split; [done|]. intros i c Hc. exists c. by rewrite app_nil_r.
Qed.

(** X14: the join and move handlers with their broadcast change the
    [games] map and answer exactly as without it; a failed request sends
    nothing to any connection, and a successful one hands the returned
    snapshot, once, to every open connection subscribed to that game and
    to no other. No connection is added, dropped, closed or resubscribed. *)
Theorem broadcast_on_success_only
    (games : gmap string TicTacToeGame) (clients : list Client.t)
    (gameId : string) (body : Body) :
  ((joinGameBroadcast games clients gameId body).1.1,
   (joinGameBroadcast games clients gameId body).2)
  = joinGame games gameId body /\
  delivered clients (joinGameBroadcast games clients gameId body).1.2
    gameId (joinGameBroadcast games clients gameId body).2 /\
  ((submitMoveBroadcast games clients gameId body).1.1,
   (submitMoveBroadcast games clients gameId body).2)
  = submitMove games gameId body /\
  delivered clients (submitMoveBroadcast games clients gameId body).1.2
    gameId (submitMoveBroadcast games clients gameId body).2.
Proof.
  unfold joinGameBroadcast, joinGame, submitMoveBroadcast, submitMove.
  destruct (games !! gameId) as [g|]; cbn.
  - destruct (addPlayer g _ _) as [[] g1], (makeMove g _ _) as [[] g2]; cbn;
      (split; [done|]);
      (split;
       [first [apply broadcastToGame_delivered | apply nothing_delivered]|]);
      (split; [done|]);
      first [apply broadcastToGame_delivered | apply nothing_delivered].
  - split; [done|]. split; [apply nothing_delivered|].
    split; [done | apply nothing_delivered].
Qed.

(** ** Subscriptions *)

Lemma handleWebSocketMessage_join
    (games : gmap string TicTacToeGame) (clients : list Client.t)
    (ws : nat) (data : Data.t) (game : TicTacToeGame) :
  Data.type data = "join_game"%string ->
  games !! Data.gameId data = Some game ->
  delivered
    (alter (fun c : Client.t =>
              Client.mk (Some (Data.gameId data))
                (Client.readyState c) (Client.sent c)) ws clients)
    (handleWebSocketMessage games clients ws data)
    (Data.gameId data) (success (getState game)).
Proof.
  intros Htype Hgame. unfold handleWebSocketMessage.
  rewrite bool_decide_eq_true_2 by done. rewrite Hgame.
  apply broadcastToGame_delivered.
Qed.

(** X15: a join_game message for a stored game subscribes the connection
    to that game, replacing whatever it was subscribed to, and at once
    sends the current snapshot to it (if it is open) and to the open
    connections already subscribed to the game; the other connections keep
    their subscriptions, and nobody else receives anything. *)
Theorem subscribe_to_game
    (games : gmap string TicTacToeGame) (clients : list Client.t)
    (ws : nat) (c : Client.t) (data : Data.t) (game : TicTacToeGame) :
  clients !! ws = Some c ->
  Data.type data = "join_game"%string ->
  games !! Data.gameId data = Some game ->
  length (handleWebSocketMessage games clients ws data) = length clients /\
  (exists c' : Client.t,
     handleWebSocketMessage games clients ws data !! ws = Some c' /\
     Client.gameId c' = Some (Data.gameId data) /\
     Client.readyState c' = Client.readyState c /\
     Client.sent c'
     = Client.sent c
       ++ (if bool_decide (Client.readyState c = OPEN)
           then [game_update (getState game)] else [])) /\
  (forall (j : nat) (cj : Client.t),
     j <> ws -> clients !! j = Some cj ->
     exists cj' : Client.t,
       handleWebSocketMessage games clients ws data !! j = Some cj' /\
       Client.gameId cj' = Client.gameId cj /\
       Client.readyState cj' = Client.readyState cj /\
       Client.sent cj'
       = Client.sent cj
         ++ (if bool_decide (Client.gameId cj = Some (Data.gameId data)
                             /\ Client.readyState cj = OPEN)
             then [game_update (getState game)] else [])).
Proof.
  intros Hc Htype Hgame.
  destruct (handleWebSocketMessage_join games clients ws data game Htype Hgame)
    as [Hlen Hall].
  split; [by rewrite Hlen, length_alter|]. split.
  - destruct (Hall ws (Client.mk (Some (Data.gameId data))
                         (Client.readyState c) (Client.sent c)))
      as (c' & Hc' & Hid & Hst & Hsent).
    { by rewrite list_lookup_alter_eq, Hc. }
    exists c'. cbn in *. repeat split; try done. rewrite Hsent.
    f_equal. erewrite bool_decide_ext; [reflexivity|].
    split; [by intros [_ ?] | by intros ?].
  - intros j cj Hne Hcj. apply Hall.
    by rewrite list_lookup_alter_ne.
Qed.

Lemma subscribe_to_game_witness :
  length (handleWebSocketMessage {["h" := started]} sampleClients 0
            (Data.mk "join_game" "h"))
  = length sampleClients.
Proof.
  apply (subscribe_to_game {["h" := started]} sampleClients 0
           (Client.mk (Some "g") OPEN []) (Data.mk "join_game" "h") started).
  - reflexivity.
  - reflexivity.
  - apply lookup_singleton_eq.
Defined.

(** X16: a connection receives the updates of the game it subscribed to
    last and of no other: once it has sent join_game for game B, a
    broadcast for another game A passes it by, even if it had been
    subscribed to A before. A join_game for an unknown game, or a message
    of another type, changes no connection. *)
Theorem updates_follow_last_subscription
    (games : gmap string TicTacToeGame) (clients : list Client.t)
    (ws : nat) (c : Client.t) (A B : string) (game : TicTacToeGame)
    (message : Message) (data : Data.t) :
  clients !! ws = Some c ->
  games !! B = Some game ->
  A <> B ->
  broadcastToGame
    (handleWebSocketMessage games clients ws (Data.mk "join_game" B))
    A message !! ws
  = handleWebSocketMessage games clients ws (Data.mk "join_game" B) !! ws /\
  (Data.type data <> "join_game"%string \/ games !! Data.gameId data = None ->
   handleWebSocketMessage games clients ws data = clients).
Proof.
  intros Hc Hgame Hne. split.
  - destruct (handleWebSocketMessage_join games clients ws
                (Data.mk "join_game" B) game eq_refl Hgame) as [_ Hall].
    destruct (Hall ws (Client.mk (Some B) (Client.readyState c)
                         (Client.sent c)))
      as (c' & Hc' & Hid & _).
    { cbn. by rewrite list_lookup_alter_eq, Hc. }
    cbn in Hc', Hid. unfold broadcastToGame at 1.
    rewrite list_lookup_fmap, Hc'. cbn. rewrite Hid.
    rewrite bool_decide_eq_false_2 by congruence. done.
  - unfold handleWebSocketMessage. intros [Htype | Hnone].
    + by rewrite bool_decide_eq_false_2.
    + rewrite Hnone. by case_bool_decide.
Qed.

Lemma updates_follow_last_subscription_witness :
  broadcastToGame
    (handleWebSocketMessage {["h" := started]} sampleClients 0
       (Data.mk "join_game" "h"))
    "g" (game_update (getState xToWin)) !! 0
  = handleWebSocketMessage {["h" := started]} sampleClients 0
      (Data.mk "join_game" "h") !! 0.
Proof.
  apply (updates_follow_last_subscription {["h" := started]} sampleClients 0
           (Client.mk (Some "g") OPEN []) "g" "h" started
           (game_update (getState xToWin)) (Data.mk "join_game" "h")).
  - reflexivity.
  - apply lookup_singleton_eq.
  - discriminate.
Defined.

(** ** The lobby against the server *)

Lemma length_append_string (s1 s2 : string) :
  String.length (s1 +:+ s2) = String.length s1 + String.length s2.
Proof. induction s1 as [|a s1 IH]; simpl; [done | by f_equal]. Qed.

Lemma name_Won_not_Draw (name : string) :
  name <> ""%string -> (name +:+ " Won")%string <> "Draw"%string.
Proof.
  intros Hne Heq. apply (f_equal String.length) in Heq.
  rewrite length_append_string in Heq. destruct name; [done|]. cbn in Heq. lia.
Qed.

(** X17: a game the lobby offers for joining can be joined. Whenever
    [canJoinGame] holds, the viewer is not yet in the game, [addPlayer]
    accepts a join under whatever id and name, and the join handler
    answers with a snapshot, never with "Game is full". *)
Theorem joinable_game_accepts_join
    (viewer : string) (game : TicTacToeGame)
    (games : gmap string TicTacToeGame) (gameId : string) (body : Body) :
  canJoinGame viewer game = true ->
  games !! gameId = Some game ->
  isPlayerInGame viewer game = false /\
  (addPlayer game (playerId body) (playerName body)).1 = true /\
  exists s : Snapshot, (joinGame games gameId body).2 = success s.
Proof.
  unfold canJoinGame, isPlayerInGame. intros Hcan Hgame.
  apply andb_prop in Hcan as [Hcan Hnot]. apply andb_prop in Hcan as [_ Hlt].
  apply Nat.ltb_lt in Hlt. apply negb_true_iff in Hnot.
  split; [exact Hnot|].
  assert (Hacc : (addPlayer game (playerId body) (playerName body)).1 = true)
    by by apply addPlayer_accepts.
  split; [exact Hacc|]. rewrite (joinGame_unfold _ _ _ _ Hgame), Hacc. eauto.
Qed.

Lemma joinable_game_accepts_join_witness :
  exists s : Snapshot,
    (joinGame {["g" := session "g" 0 [Join "p1" "Ann"]]} "g"
       (mkBody "p2" "Bob" 0)).2 = success s.
Proof.
  apply (joinable_game_accepts_join "p2" (session "g" 0 [Join "p1" "Ann"])
           {["g" := session "g" 0 [Join "p1" "Ann"]]} "g"
           (mkBody "p2" "Bob" 0)).
  - reflexivity.
  - apply lookup_singleton_eq.
Defined.

(** X18: against this server the lobby never shows "Draw". A drawn game
    arrives with winner 'draw', which is not null and is no player's
    symbol, so every viewer reads "Opponent Won"; a game that is not
    finished shows no result. *)
Theorem lobby_never_shows_draw
    (gameId : string) (now : Z) (rs : list Request) (viewer : string) :
  getGameResult viewer (session gameId now rs) <> Some "Draw"%string /\
  (winner (session gameId now rs) = Some draw ->
   getGameResult viewer (session gameId now rs)
   = Some "Opponent Won"%string) /\
  (status (session gameId now rs) <> finished ->
   getGameResult viewer (session gameId now rs) = None).
Proof.
  pose proof (session_consistent gameId now rs) as (_ & _ & Hst).
  generalize dependent (session gameId now rs). intros g Hst.
  unfold getGameResult.
  destruct (status g) eqn:Hs; destruct Hst as [_ Hw];
    rewrite ?bool_decide_eq_false_2, ?bool_decide_eq_true_2 by done; cbn.
  - rewrite Hw. by repeat split.
  - rewrite Hw. by repeat split.
  - destruct (winner g) as [w|]; [clear Hw | done].
    split; [|split; [|done]].
    + case_bool_decide; [done|].
      destruct (List.find _ (players g)) as [p|]; [|done].
      case_bool_decide as Hname; [done|].
      intros [= Heq]. by apply (name_Won_not_Draw (Player.name p)).
    + intros [= ->].
      assert (Hnone : List.find
                        (fun p => bool_decide (won (Player.symbol p) = draw))
                        (players g) = None).
      { induction (players g) as [|p ps IH]; [done|]. cbn.
        by rewrite bool_decide_eq_false_2. }
      rewrite Hnone. cbn. by rewrite bool_decide_eq_false_2.
Qed.

Lemma lobby_never_shows_draw_witness :
  getGameResult "p1" (session "g" 0 drawGame) = Some "Opponent Won"%string.
Proof. apply (lobby_never_shows_draw "g" 0 drawGame "p1"). reflexivity. Defined.

Lemma canJoinGame_waiting (viewer : string) (g : TicTacToeGame) :
  canJoinGame viewer g = true ->
  status g = waiting /\ isPlayerInGame viewer g = false.
Proof.
  unfold canJoinGame, isPlayerInGame. intros Hcan.
  apply andb_prop in Hcan as [Hcan Hnot]. apply andb_prop in Hcan as [Hw _].
  apply bool_decide_eq_true in Hw. by apply negb_true_iff in Hnot.
Qed.

(** X19: the filter counts of the lobby add up. Every game is counted
    under exactly one of waiting, playing and finished; the joinable games
    are among the waiting ones; and no game is both joinable and one of the
    viewer's own. *)
Theorem filter_counts_add_up (viewer : string) (games : list TicTacToeGame) :
  Counts.waiting (getFilterCounts viewer games)
  + Counts.playing (getFilterCounts viewer games)
  + Counts.finished (getFilterCounts viewer games)
  = Counts.all (getFilterCounts viewer games) /\
  Counts.joinable (getFilterCounts viewer games)
  <= Counts.waiting (getFilterCounts viewer games) /\
  Counts.joinable (getFilterCounts viewer games)
  + Counts.myGames (getFilterCounts viewer games)
  <= Counts.all (getFilterCounts viewer games).
Proof.
  unfold getFilterCounts. cbn.
  induction games as [|g games (IH1 & IH2 & IH3)]; simpl; [lia|].
  pose proof (canJoinGame_waiting viewer g) as Hj.
  destruct (canJoinGame viewer g), (isPlayerInGame viewer g);
    destruct (bool_decide_reflect (status g = waiting)) as [Hw|Hw],
             (bool_decide_reflect (status g = playing)) as [Hp|Hp],
             (bool_decide_reflect (status g = finished)) as [Hf|Hf];
    simpl; try lia; try congruence; try (destruct (status g); congruence);
    destruct Hj as [Hj1 Hj2]; congruence.
Qed.

(** ** Who may move *)

(** X20: only the participant whose turn it is can move. When a move is
    accepted in a session, the session has its two players, and the
    request carries the id of the first of them on X's turn, or, on O's
    turn, the id of the second, which then differs from the first's. *)
Theorem accepted_move_is_by_turn_holder
    (gameId : string) (now : Z) (rs : list Request)
    (pid : string) (pos : Z) :
  (makeMove (session gameId now rs) pid pos).1 = true ->
  exists p q : Player.t,
    players (session gameId now rs) = [p; q] /\
    Player.symbol p = X /\ Player.symbol q = O /\
    (currentPlayer (session gameId now rs) = X /\ pid = Player.id p
     \/ currentPlayer (session gameId now rs) = O /\ pid = Player.id q /\
        Player.id q <> Player.id p).
Proof.
  pose proof (session_consistent gameId now rs) as (_ & Hsym & Hst).
  generalize dependent (session gameId now rs). intros g Hsym Hst Hok.
  destruct (makeMove g pid pos) as [ok g'] eqn:Hm. cbn in Hok. subst ok.
  apply makeMove_accepted in Hm
    as (Hplay & _ & (player & Hfind & Hturn) & _).
  rewrite Hplay in Hst. destruct Hst as [Hlen _].
  destruct (players g) as [|p [|q [|r ps]]]; try discriminate.
  cbn in Hsym. injection Hsym as HpX HqO.
  exists p, q. split; [done|]. split; [done|]. split; [done|].
  unfold findPlayer in Hfind. cbn in Hfind.
  destruct (bool_decide_reflect (Player.id p = pid)) as [Hp|Hp].
  - left. split; [congruence | done].
  - destruct (bool_decide_reflect (Player.id q = pid)) as [Hq|Hq];
      [|discriminate].
    right. split; [congruence|]. split; [done | congruence].
Qed.

Lemma accepted_move_is_by_turn_holder_witness :
  exists p q : Player.t,
    players started = [p; q] /\
    Player.symbol p = X /\ Player.symbol q = O /\
    (currentPlayer started = X /\ "p1"%string = Player.id p
     \/ currentPlayer started = O /\ "p1"%string = Player.id q /\
        Player.id q <> Player.id p).
Proof.
  apply (accepted_move_is_by_turn_holder "g" 0 twoPlayers "p1" 0).
  reflexivity.
Defined.
